(** * vsrgtools.blur: backend selection and per-pixel expression programs

    A shallow embedding of [vsrgtools/blur.py].  The blur operators of that
    module do not touch pixels themselves: each one inspects its arguments,
    the clip's format and the plugins the host offers, and builds a node of
    the filter graph (a plugin call, a kernel application, or a per-pixel
    expression program handed to the expression engine).  The embedding
    follows that: an operator is a function into [Result VideoNode], where a
    [VideoNode] is the graph term the Python code would construct and
    [Raise] carries the Python exception.

    The per-pixel programs ([min_blur], [sbr], [median_blur]) are modelled as
    instruction lists, one instruction per token of the source's expression
    string, and run by a stack machine that follows the documented semantics
    of the expression engine (std.Expr and its akarin extension). *)

From Stdlib Require Import ZArith List String Ascii DecimalString Bool Lia QArith.
From Stdlib Require Import Sorting.Sorted Sorting.Permutation.
Import ListNotations.
Local Open Scope string_scope.
Local Open Scope list_scope.
Local Open Scope Z_scope.

(* ===================================================================== *)
(** ** Python results and exceptions *)
(* ===================================================================== *)

(** The exceptions the module can raise.  [NameError] is what CPython raises
    when a global name is evaluated that the module never bound. *)
Inductive PyExn : Type :=
| NameError (name : string)
| ValueError (msg : string)
| CustomIndexError (msg : string) (func : string) (reason : Z)
| CustomRuntimeError (msg : string).

Inductive Result (A : Type) : Type :=
| Ok (a : A)
| Raise (e : PyExn).

Arguments Ok {A} a.
Arguments Raise {A} e.

Definition bind {A B : Type} (r : Result A) (k : A -> Result B) : Result B :=
  match r with
  | Ok a => k a
  | Raise e => Raise e
  end.

Notation "x <- r ;; k" := (bind r (fun x => k))
  (at level 61, r at next level, right associativity).

Fixpoint mapM {A B : Type} (f : A -> Result B) (l : list A) : Result (list B) :=
  match l with
  | [] => Ok []
  | a :: t => b <- f a ;; bs <- mapM f t ;; Ok (b :: bs)
  end.

(** The names bound at module level in blur.py: lines 3-16 (imports) and the
    eight operators the module defines. *)
Definition module_globals : list string :=
  [ "annotations"; "partial"; "count"; "Any"; "Literal";
    "ExprList"; "ExprOp"; "ExprVars"; "complexpr_available"; "norm_expr";
    "Gaussian";
    "ConvMode"; "CustomIndexError"; "FunctionUtil"; "PlanesT"; "StrList";
    "check_variable"; "core"; "depth"; "get_depth"; "join";
    "normalize_planes"; "split"; "to_arr"; "vs";
    "BlurMatrix"; "BlurMatrixBase"; "LimitFilterMode";
    "limit_filter"; "normalize_radius";
    "box_blur"; "side_box_blur"; "gauss_blur"; "min_blur"; "sbr";
    "median_blur"; "bilateral"; "flux_smooth" ].

Definition is_bound (name : string) : bool :=
  existsb (String.eqb name) module_globals.

(** [raise Cls(args)]: the class name is looked up first; an unbound name
    raises [NameError] before the exception object is ever built. *)
Definition raise_named {A : Type} (cls : string) (e : PyExn) : Result A :=
  if is_bound cls then Raise e else Raise (NameError cls).

(* ===================================================================== *)
(** ** The per-pixel expression engine *)
(* ===================================================================== *)

(** One constructor per kind of token used by the module's expressions. *)
Inductive instr : Type :=
| Load (c : nat) (dx dy : Z)   (* x, y, z (offset 0,0) and x[dx,dy] *)
| Neutral                      (* neutral *)
| Add                          (* + *)
| Sub                          (* - *)
| Abs                          (* abs *)
| Lt                           (* < *)
| Xor                          (* xor *)
| Ternary                      (* ? *)
| Store (v : string)           (* v! *)
| Fetch (v : string)           (* v@ *)
| SortN (n : Z)                (* sortN *)
| SwapN (n : Z)                (* swapN *)
| DropN (n : Z)                (* dropN *)
| Clip.                        (* clip *)

Definition ExprProgram : Type := list instr.

(** What a program sees of the frames: the sample of input clip [c] at a
    relative offset from the current pixel, and the format's neutral value. *)
Record PixelEnv : Type := mkPixelEnv {
  sample : nat -> Z -> Z -> Z;
  neutral : Z
}.

(** Truth in the engine: a value is true when it is greater than zero. *)
Definition truthy (v : Z) : bool := 0 <? v.
Definition of_bool (b : bool) : Z := if b then 1 else 0.

Fixpoint insert_asc (v : Z) (l : list Z) : list Z :=
  match l with
  | [] => [v]
  | h :: t => if v <=? h then v :: l else h :: insert_asc v t
  end.

Fixpoint sort_asc (l : list Z) : list Z :=
  match l with
  | [] => []
  | h :: t => insert_asc h (sort_asc t)
  end.

Fixpoint set_nth (n : nat) (v : Z) (l : list Z) : list Z :=
  match l, n with
  | [], _ => []
  | _ :: t, O => v :: t
  | h :: t, S n' => h :: set_nth n' v t
  end.

(** swapN: exchange the top of the stack with the N-th value below it. *)
Definition swap_top (n : nat) (st : list Z) : option (list Z) :=
  match st with
  | [] => None
  | top :: _ =>
      if (n <? List.length st)%nat
      then Some (set_nth n top (set_nth 0 (nth n st 0) st))
      else None
  end.

Definition clamp (x lo hi : Z) : Z := Z.max lo (Z.min x hi).

Definition Regs : Type := list (string * Z).

Fixpoint reg_get (v : string) (r : Regs) : option Z :=
  match r with
  | [] => None
  | (k, z) :: t => if String.eqb k v then Some z else reg_get v t
  end.

Definition Machine : Type := (list Z * Regs)%type.

(** One instruction.  The stack is a list whose head is the top.  [None] is
    a program the engine rejects (stack underflow, unset register, negative
    count). *)
Definition step (env : PixelEnv) (i : instr) (m : Machine) : option Machine :=
  let '(st, rg) := m in
  match i, st with
  | Load c dx dy, _ => Some (sample env c dx dy :: st, rg)
  | Neutral, _ => Some (neutral env :: st, rg)
  | Add, b :: a :: s => Some (a + b :: s, rg)
  | Sub, b :: a :: s => Some (a - b :: s, rg)
  | Abs, a :: s => Some (Z.abs a :: s, rg)
  | Lt, b :: a :: s => Some (of_bool (a <? b) :: s, rg)
  | Xor, b :: a :: s => Some (of_bool (xorb (truthy a) (truthy b)) :: s, rg)
  | Ternary, f :: t :: c :: s => Some ((if truthy c then t else f) :: s, rg)
  | Store v, a :: s => Some (s, (v, a) :: rg)
  | Fetch v, _ =>
      match reg_get v rg with
      | Some a => Some (a :: st, rg)
      | None => None
      end
  | SortN n, _ =>
      if (0 <=? n) && (Z.to_nat n <=? List.length st)%nat
      then Some (sort_asc (firstn (Z.to_nat n) st) ++ skipn (Z.to_nat n) st, rg)
      else None
  | SwapN n, _ =>
      if 0 <=? n
      then match swap_top (Z.to_nat n) st with
           | Some st' => Some (st', rg)
           | None => None
           end
      else None
  | DropN n, _ =>
      if (0 <=? n) && (Z.to_nat n <=? List.length st)%nat
      then Some (skipn (Z.to_nat n) st, rg)
      else None
  | Clip, hi :: lo :: x :: s => Some (clamp x lo hi :: s, rg)
  | _, _ => None
  end.

Fixpoint run (env : PixelEnv) (p : ExprProgram) (m : Machine) : option Machine :=
  match p with
  | [] => Some m
  | i :: rest =>
      match step env i m with
      | Some m' => run env rest m'
      | None => None
      end
  end.

(** A program is evaluated on an empty stack and must leave exactly one
    value, the output sample. *)
Definition eval (env : PixelEnv) (p : ExprProgram) : option Z :=
  match run env p ([], []) with
  | Some ([v], _) => Some v
  | _ => None
  end.

(** Input clips of a pointwise program: x, y, z are inputs 0, 1, 2. *)
Definition pointwise (vals : list Z) (neutral_value : Z) : PixelEnv :=
  mkPixelEnv (fun c _ _ => nth c vals 0) neutral_value.

Definition x_ : instr := Load 0 0 0.
Definition y_ : instr := Load 1 0 0.
Definition z_ : instr := Load 2 0 0.

(** min_blur, line 208:
    'x y - D1! x z - D2! D1@ D2@ xor x D1@ abs D2@ abs < y z ? ?' *)
Definition min_blur_expr : ExprProgram :=
  [ x_; y_; Sub; Store "D1"; x_; z_; Sub; Store "D2";
    Fetch "D1"; Fetch "D2"; Xor; x_;
    Fetch "D1"; Abs; Fetch "D2"; Abs; Lt; y_; z_; Ternary; Ternary ].

(** sbr, line 230:
    'x y - D1! x neutral - D2! D1@ D2@ xor neutral D1@ abs D2@ abs < D1@ neutral + x ? ?' *)
Definition sbr_expr : ExprProgram :=
  [ x_; y_; Sub; Store "D1"; x_; Neutral; Sub; Store "D2";
    Fetch "D1"; Fetch "D2"; Xor; Neutral;
    Fetch "D1"; Abs; Fetch "D2"; Abs; Lt;
    Fetch "D1"; Neutral; Add; x_; Ternary; Ternary ].

(** median_blur, lines 243-253.  [coords] are the offsets ExprOp.matrix
    returns for the radius and mode with the centre (0, 0) excluded; the
    f-string is
    "{matrix} sort{st} swap{sp} min! swap{sp} max! drop{dp} x min@ max@ clip". *)
Definition median_expr (coords : list (Z * Z)) : ExprProgram :=
  let matrix := map (fun c => Load 0 (fst c) (snd c)) coords in
  let rb := Z.of_nat (List.length matrix) + 1 in
  let st := rb - 1 in
  let sp := rb / 2 - 1 in
  let dp := st - 2 in
  matrix ++
  [ SortN st; SwapN sp; Store "min"; SwapN sp; Store "max"; DropN dp;
    x_; Fetch "min"; Fetch "max"; Clip ].

(** *** The textual form of the programs

    blur.py writes its programs as strings of space-separated tokens.  The
    reader below turns such a string into instructions, so that the
    instruction lists above can be compared with the text of the source. *)

Fixpoint words_from (s cur : string) : list string :=
  match s with
  | EmptyString =>
      match cur with
      | EmptyString => []
      | _ => [cur]
      end
  | String c t =>
      if Ascii.eqb c " "%char
      then match cur with
           | EmptyString => words_from t EmptyString
           | _ => cur :: words_from t EmptyString
           end
      else words_from t (String.append cur (String c EmptyString))
  end.

Definition words (s : string) : list string := words_from s EmptyString.

Fixpoint unwords (ws : list string) : string :=
  match ws with
  | [] => EmptyString
  | [w] => w
  | w :: rest => String.append w (String " "%char (unwords rest))
  end.

Definition digit_of (c : ascii) : option Z :=
  let n := Z.of_nat (nat_of_ascii c) in
  if (48 <=? n) && (n <=? 57) then Some (n - 48) else None.

Fixpoint digits_value (s : string) (acc : Z) : option Z :=
  match s with
  | EmptyString => Some acc
  | String c t =>
      match digit_of c with
      | Some d => digits_value t (10 * acc + d)
      | None => None
      end
  end.

Definition int_of_text (s : string) : option Z :=
  match s with
  | EmptyString => None
  | String c t =>
      if Ascii.eqb c "-"%char
      then match t with
           | EmptyString => None
           | _ => option_map Z.opp (digits_value t 0)
           end
      else digits_value s 0
  end.

(** Python's str(int). *)
Definition text_of_int (n : Z) : string := NilZero.string_of_int (Z.to_int n).

Fixpoint strip_prefix (p s : string) : option string :=
  match p, s with
  | EmptyString, _ => Some s
  | String a p', String b s' => if Ascii.eqb a b then strip_prefix p' s' else None
  | String _ _, EmptyString => None
  end.

Fixpoint split_last (s : string) : option (string * ascii) :=
  match s with
  | EmptyString => None
  | String c t =>
      match split_last t with
      | Some (init, l) => Some (String c init, l)
      | None => Some (EmptyString, c)
      end
  end.

Definition clip_index (name : string) : option nat :=
  if String.eqb name "x" then Some 0%nat
  else if String.eqb name "y" then Some 1%nat
  else if String.eqb name "z" then Some 2%nat
  else None.

(** v[dx,dy] *)
Definition relative_load (t : string) : option instr :=
  match t with
  | String c (String b rest) =>
      match clip_index (String c EmptyString), Ascii.eqb b "["%char, split_last rest with
      | Some i, true, Some (inner, close) =>
          if Ascii.eqb close "]"%char
          then match String.index 0 "," inner with
               | Some n =>
                   match int_of_text (substring 0 n inner),
                         int_of_text (substring (S n) (String.length inner - S n) inner) with
                   | Some dx, Some dy => Some (Load i dx dy)
                   | _, _ => None
                   end
               | None => None
               end
          else None
      | _, _, _ => None
      end
  | _ => None
  end.

Definition counted (mk : Z -> instr) (prefix t : string) : option instr :=
  match strip_prefix prefix t with
  | Some rest => option_map mk (int_of_text rest)
  | None => None
  end.

Definition first_some (a b : option instr) : option instr :=
  match a with
  | Some i => Some i
  | None => b
  end.

Definition named (t : string) : option instr :=
  match split_last t with
  | Some (String c v', mark) =>
      if Ascii.eqb mark "!"%char then Some (Store (String c v'))
      else if Ascii.eqb mark "@"%char then Some (Fetch (String c v'))
      else None
  | _ => None
  end.

Definition parse_token (t : string) : option instr :=
  if String.eqb t "+" then Some Add
  else if String.eqb t "-" then Some Sub
  else if String.eqb t "abs" then Some Abs
  else if String.eqb t "<" then Some Lt
  else if String.eqb t "xor" then Some Xor
  else if String.eqb t "?" then Some Ternary
  else if String.eqb t "clip" then Some Clip
  else if String.eqb t "neutral" then Some Neutral
  else
    match clip_index t with
    | Some i => Some (Load i 0 0)
    | None =>
        first_some (named t)
          (first_some (counted SortN "sort" t)
             (first_some (counted SwapN "swap" t)
                (first_some (counted DropN "drop" t) (relative_load t))))
    end.

Fixpoint parse_tokens (ts : list string) : option ExprProgram :=
  match ts with
  | [] => Some []
  | t :: rest =>
      match parse_token t, parse_tokens rest with
      | Some i, Some p => Some (i :: p)
      | _, _ => None
      end
  end.

Definition parse (text : string) : option ExprProgram := parse_tokens (words text).

(** Line 208. *)
Definition min_blur_text : string :=
  "x y - D1! x z - D2! D1@ D2@ xor x D1@ abs D2@ abs < y z ? ?".

(** Line 230. *)
Definition sbr_text : string :=
  "x y - D1! x neutral - D2! D1@ D2@ xor neutral D1@ abs D2@ abs < D1@ neutral + x ? ?".

(** Lines 244-253, with the matrix tokens x[dx,dy] joined by spaces. *)
Definition median_text (coords : list (Z * Z)) : string :=
  let matrix :=
    map (fun c => String.append "x["
                    (String.append (text_of_int (fst c))
                       (String.append ","
                          (String.append (text_of_int (snd c)) "]")))) coords in
  let rb := Z.of_nat (List.length matrix) + 1 in
  let st := rb - 1 in
  let sp := rb / 2 - 1 in
  let dp := st - 2 in
  unwords
    [ unwords matrix;
      String.append "sort" (text_of_int st);
      String.append "swap" (text_of_int sp); "min!";
      String.append "swap" (text_of_int sp); "max!";
      String.append "drop" (text_of_int dp);
      "x"; "min@"; "max@"; "clip" ].

(** The agreement rule of min_blur written as a function: [x] is the source
    pixel, [a] the binomial blur and [b] the median. *)
Definition agree (d1 d2 : Z) : bool := negb (xorb (truthy d1) (truthy d2)).

Definition min_blur_merge (x a b : Z) : Z :=
  if agree (x - a) (x - b)
  then (if Z.abs (x - a) <? Z.abs (x - b) then a else b)
  else x.

(** The limiter of sbr: [d] is the residual, [e] its re-blur. *)
Definition sbr_merge (nv d e : Z) : Z :=
  if agree (d - e) (d - nv)
  then (if Z.abs (d - e) <? Z.abs (d - nv) then (d - e) + nv else d)
  else nv.

(* ===================================================================== *)
(** ** Clips, formats and the filter graph *)
(* ===================================================================== *)

Inductive ConvMode : Type := SQUARE | VERTICAL | HORIZONTAL | HV.

(** ConvMode is a string enumeration of vstools; [in] between two members is
    Python's substring test on these values. *)
Definition mode_value (m : ConvMode) : string :=
  match m with
  | SQUARE => "s"
  | VERTICAL => "v"
  | HORIZONTAL => "h"
  | HV => "hv"
  end.

Fixpoint contains (s sub : string) : bool :=
  String.prefix sub s ||
  match s with
  | EmptyString => false
  | String _ t => contains t sub
  end.

(** [a in b] for two modes. *)
Definition mode_in (a b : ConvMode) : bool := contains (mode_value b) (mode_value a).

Definition mode_eqb (a b : ConvMode) : bool :=
  match a, b with
  | SQUARE, SQUARE | VERTICAL, VERTICAL | HORIZONTAL, HORIZONTAL | HV, HV => true
  | _, _ => false
  end.

Inductive SampleType : Type := INTEGER | FLOAT.

Record VideoFormat : Type := mkFormat {
  sample_type : SampleType;
  bits_per_sample : Z;
  num_planes : nat
}.

Definition sample_type_eqb (a b : SampleType) : bool :=
  match a, b with
  | INTEGER, INTEGER | FLOAT, FLOAT => true
  | _, _ => false
  end.

Definition format_eqb (f g : VideoFormat) : bool :=
  sample_type_eqb (sample_type f) (sample_type g)
  && (bits_per_sample f =? bits_per_sample g)
  && (num_planes f =? num_planes g)%nat.

(** [int | list[int]] and [float | list[float]] parameters. *)
Inductive RadiusSpec (A : Type) : Type :=
| Scalar (a : A)
| PerPlane (l : list A).

Arguments Scalar {A} a.
Arguments PerPlane {A} l.

(** PlanesT: [None], or the planes asked for. *)
Definition PlanesT : Type := option (list nat).

(** The kernel objects BlurMatrix builds, kept symbolic: the weights are
    floating point and no branch of blur.py looks at them. *)
Inductive BlurMatrixBase : Type :=
| MEAN (radius : Z) (mode : ConvMode)
| BINOMIAL (radius : RadiusSpec Z) (mode : ConvMode)
| GAUSS (taps : Z) (sigma : Q) (mode : ConvMode) (scale_value : Q).

(** Modelled from the spec: BlurMatrix.GAUSS lives in vsrgtools/enum.py, which
    is absent from src/.  The Gaussian kernel samples the density at the
    integer offsets -taps..taps, so [len(kernel)] is [2 * taps + 1]. *)
Definition gauss_len (taps : Z) : Z := 2 * taps + 1.

Inductive PyVal : Type :=
| VNone
| VInt (n : Z)
| VBool (b : bool)
| VFloat (q : Q)
| VStr (s : string)
| VMode (m : ConvMode)
| VPlanes (p : list nat)
| VPlanesT (p : PlanesT)
| VSeq (v : RadiusSpec Q)
| VRadius (r : option (RadiusSpec Z))
| VExpr (p : list ExprProgram)
| VKernel (k : BlurMatrixBase).

(** A clip is a node of the filter graph: a source, a bit-depth conversion,
    or a call [clips[0].ns.fn(args)] with further clip inputs.  Every node
    has one format and one size, which is what the operators assert with
    [check_variable] before anything else. *)
#[warnings="-register-all"]
Inductive VideoNode : Type :=
| Source (name : string) (fmt : VideoFormat) (width height : Z)
| Depth (clip : VideoNode) (bits : Z)
| DepthOf (clip ref : VideoNode)
| Call (ns fn : string) (clips : list VideoNode) (args : list PyVal).

(** vstools.depth keeps the planes and sets the sample size; sizes of 32 bits
    are float samples. *)
Definition with_depth (f : VideoFormat) (bits : Z) : VideoFormat :=
  mkFormat (if bits <? 32 then INTEGER else FLOAT) bits (num_planes f).

Definition no_format : VideoFormat := mkFormat INTEGER 0 0.

Fixpoint format_of (c : VideoNode) : VideoFormat :=
  match c with
  | Source _ fmt _ _ => fmt
  | Depth c' bits => with_depth (format_of c') bits
  | DepthOf _ ref => format_of ref
  | Call _ _ (c' :: _) _ => format_of c'
  | Call _ _ [] _ => no_format
  end.

Fixpoint width_of (c : VideoNode) : Z :=
  match c with
  | Source _ _ w _ => w
  | Depth c' _ => width_of c'
  | DepthOf c' _ => width_of c'
  | Call _ _ (c' :: _) _ => width_of c'
  | Call _ _ [] _ => 0
  end.

Fixpoint height_of (c : VideoNode) : Z :=
  match c with
  | Source _ _ _ h => h
  | Depth c' _ => height_of c'
  | DepthOf c' _ => height_of c'
  | Call _ _ (c' :: _) _ => height_of c'
  | Call _ _ [] _ => 0
  end.

Definition get_depth (c : VideoNode) : Z := bits_per_sample (format_of c).

(** What the process offers at run time, and the two helpers of other
    packages whose values the operators only pass on. *)
Record Host : Type := mkHost {
  plugins : list string;               (* namespaces present on [core] *)
  complexpr_available : bool;          (* vsexprtools.complexpr_available *)
  get_taps : Q -> option Z -> Z;       (* BlurMatrix.GAUSS.get_taps *)
  expr_matrix : Z -> ConvMode -> list (Z * Z)
    (* offsets of ExprOp.matrix('x', radius, mode, [(0, 0)]) *)
}.

Definition hasattr (h : Host) (ns : string) : bool :=
  existsb (String.eqb ns) (plugins h).

Definition mem (i : nat) (l : list nat) : bool := existsb (Nat.eqb i) l.

(** vstools.normalize_planes: all planes for [None], else the requested
    planes that the clip has, sorted and without repetition. *)
Definition normalize_planes (c : VideoNode) (p : PlanesT) : list nat :=
  let all := seq 0 (num_planes (format_of c)) in
  match p with
  | None => all
  | Some l => filter (fun i => mem i l) all
  end.

Definition to_arr {A : Type} (r : RadiusSpec A) : list A :=
  match r with
  | Scalar a => [a]
  | PerPlane l => l
  end.

(** split(clip)[i] and join(planes). *)
Definition plane (c : VideoNode) (i : nat) : VideoNode :=
  Call "vstools" "plane" [c] [VInt (Z.of_nat i)].

Definition join (ps : list VideoNode) : VideoNode := Call "vstools" "join" ps [].

(** kernel(clip, planes, passes=passes) *)
Definition apply_kernel (k : BlurMatrixBase) (c : VideoNode) (planes : list nat)
    (passes : Z) : VideoNode :=
  Call "BlurMatrix" "__call__" [c] [VKernel k; VPlanes planes; VInt passes].

Definition norm_expr (clips : list VideoNode) (progs : list ExprProgram)
    (planes : PlanesT) : VideoNode :=
  Call "vsexprtools" "norm_expr" clips [VExpr progs; VPlanesT planes].

(* ===================================================================== *)
(** ** The radius normalizer *)
(* ===================================================================== *)

Section RadiusNormalizer.

Context {R : Type}.
Variable eqb : R -> R -> bool.

(** First occurrences, in order. *)
Fixpoint distinct (l : list R) : list R :=
  match l with
  | [] => []
  | r :: t => r :: filter (fun r' => negb (eqb r r')) (distinct t)
  end.

Definition radius_at (radius : list R) (i : nat) : list R :=
  match nth_error radius i with
  | Some r => [r]
  | None => []
  end.

Definition has_radius (radius : list R) (r : R) (i : nat) : bool :=
  match nth_error radius i with
  | Some ri => eqb r ri
  | None => false
  end.

(** The plane-radius groups of a request: each distinct radius of a
    selected plane, with the selected planes that ask for it. *)
Definition radius_groups (radius : list R) (planes : list nat) : list (R * list nat) :=
  map (fun r => (r, filter (has_radius radius r) planes))
      (distinct (flat_map (radius_at radius) planes)).

(** The clip a plane of the result is taken from: the output of the group
    that selects the plane, the input clip when no group does. *)
Fixpoint source_for (outs : list (list nat * VideoNode)) (clip : VideoNode)
    (i : nat) : VideoNode :=
  match outs with
  | [] => clip
  | (g, o) :: t => if mem i g then o else source_for t clip i
  end.

(** Modelled from the spec: normalize_radius is defined in vsrgtools/util.py,
    which is absent from src/.  The RadiusNormalizer invokes the
    scalar-radius operator once per distinct plane-radius group and
    recombines the plane outputs, preserving plane order and leaving planes
    outside the selection as they are in the input. *)
Definition normalize_radius (clip : VideoNode)
    (func : VideoNode -> R -> list nat -> Result VideoNode)
    (radius : list R) (planes : list nat) : Result VideoNode :=
  outs <- mapM (fun g => o <- func clip (fst g) (snd g) ;; Ok (snd g, o))
               (radius_groups radius planes) ;;
  Ok (join (map (fun i => plane (source_for outs clip i) i)
                (seq 0 (num_planes (format_of clip))))).

End RadiusNormalizer.

(* ===================================================================== *)
(** ** The operators of blur.py *)
(* ===================================================================== *)

Definition is_half_float (f : VideoFormat) : bool :=
  sample_type_eqb (sample_type f) FLOAT && (bits_per_sample f =? 16).

(** Lines 41-45: the arguments both native box blurs are called with. *)
Definition box_args (planes : list nat) (radius passes : Z) (mode : ConvMode)
    : list PyVal :=
  [ VPlanes planes;
    VInt radius; VInt (if mode_eqb mode VERTICAL then 0 else passes);
    VInt radius; VInt (if mode_eqb mode HORIZONTAL then 0 else passes) ].

(** box_blur with an int radius (lines 33, 38-55). *)
Definition box_blur_int (h : Host) (clip : VideoNode) (radius passes : Z)
    (mode : ConvMode) (planes0 : PlanesT) : Result VideoNode :=
  let planes := normalize_planes clip planes0 in
  if radius =? 0 then Ok clip
  else
    if hasattr h "vszip"
    then Ok (Call "vszip" "BoxBlur" [clip] (box_args planes radius passes mode))
    else if (12 <? radius) && negb (is_half_float (format_of clip))
         then Ok (Call "std" "BoxBlur" [clip] (box_args planes radius passes mode))
         else Ok (apply_kernel (MEAN radius mode) clip planes passes).

(** box_blur (lines 26-55).  A list goes to the normalizer, which calls
    box_blur again with [passes] as its only extra keyword, so the mode of
    those calls is the default HV. *)
Definition box_blur (h : Host) (clip : VideoNode) (radius : RadiusSpec Z)
    (passes : Z) (mode : ConvMode) (planes : PlanesT) : Result VideoNode :=
  match radius with
  | PerPlane l =>
      normalize_radius Z.eqb clip
        (fun c r pl => box_blur_int h c r passes HV (Some pl))
        l (normalize_planes clip planes)
  | Scalar r => box_blur_int h clip r passes mode planes
  end.

Section SideBoxBlur.

(** Lines 67-126, the directional blur for one int radius, as a function of
    the clip, the radius, the normalised planes and [inverse]. *)
Variable side_box_body : VideoNode -> Z -> list nat -> bool -> Result VideoNode.

(** side_box_blur (lines 58-65). *)
Definition side_box_blur (clip : VideoNode) (radius : RadiusSpec Z)
    (planes : PlanesT) (inverse : bool) : Result VideoNode :=
  let planes := normalize_planes clip planes in
  match radius with
  | PerPlane l =>
      normalize_radius Z.eqb clip
        (fun c r pl => side_box_body c r (normalize_planes c (Some pl)) inverse)
        l planes
  | Scalar r => side_box_body clip r planes inverse
  end.

End SideBoxBlur.

(** Python's [min(sigma, dim)]: the second argument only when it is smaller. *)
Definition py_min (sigma : Q) (dim : Z) : Q :=
  if Qle_bool sigma (inject_Z dim) then sigma else inject_Z dim.

Definition newline : string := String (Ascii.ascii_of_nat 10) EmptyString.

Definition high_sigma_message : string :=
  "With a high sigma you need a high number of taps, "
  ++ "and that't only supported with vskernels scaling or akarin expr!"
  ++ newline
  ++ "Install one of the two plugins (resize2, akarin) or set a lower number of taps (<= 12)!".

(** ExprOp.convolution('x', kernel, mode=m)(proc) *)
Definition expr_convolution (k : BlurMatrixBase) (m : ConvMode) (proc : VideoNode)
    : VideoNode :=
  Call "ExprOp" "convolution" [proc] [VKernel k; VMode m].

(** Gaussian(sigma, taps).scale(plane, force_h=..., force_v=...) *)
Definition resize2_blur (sigma : Q) (taps : Z) (mode : ConvMode) (p : VideoNode)
    : VideoNode :=
  Call "vskernels" "Gaussian.scale" [p]
    [ VFloat sigma; VInt taps;
      VBool (contains (mode_value mode) "h"); VBool (contains (mode_value mode) "v") ].

(** Lines 140-144: sigma never exceeds the frame along a restricted axis. *)
Definition limit_sigma (clip : VideoNode) (mode : ConvMode) (sigma : Q) : Q :=
  let sigma := if mode_in mode VERTICAL then py_min sigma (height_of clip) else sigma in
  let sigma := if mode_in mode HORIZONTAL then py_min sigma (width_of clip) else sigma in
  sigma.

(** gauss_blur with a float sigma (lines 135, 140-184). *)
Definition gauss_blur_float (h : Host) (clip : VideoNode) (sigma : Q)
    (taps : option Z) (mode : ConvMode) (planes0 : PlanesT) : Result VideoNode :=
  let planes := normalize_planes clip planes0 in
  let sigma := limit_sigma clip mode sigma in
  let taps := get_taps h sigma taps in
  let no_resize2 := negb (hasattr h "resize2") in
  let kernel :=
    GAUSS taps sigma mode (if no_resize2 && (12 <? taps) then 1%Q else 1023%Q) in
  if gauss_len taps <=? 25
  then Ok (Call "BlurMatrix" "__call__" [clip] [VKernel kernel; VPlanes planes])
  else if no_resize2
  then
    if negb (complexpr_available h)
    then raise_named "CustomRuntimeError" (CustomRuntimeError high_sigma_message)
    else
      let proc := clip in
      let proc := if mode_in HORIZONTAL mode
                  then expr_convolution kernel HORIZONTAL proc else proc in
      let proc := if mode_in VERTICAL mode
                  then expr_convolution kernel VERTICAL proc else proc in
      Ok proc
  else
    let all := seq 0 (num_planes (format_of clip)) in
    if forallb (fun i => mem i planes) all
    then Ok (resize2_blur sigma taps mode clip)
    else Ok (join (map (fun i => if mem i planes
                                 then resize2_blur sigma taps mode (plane clip i)
                                 else plane clip i) all)).

(** gauss_blur (lines 129-184).  The normalizer is given [mode] only. *)
Definition gauss_blur (h : Host) (clip : VideoNode) (sigma : RadiusSpec Q)
    (taps : option Z) (mode : ConvMode) (planes : PlanesT) : Result VideoNode :=
  match sigma with
  | PerPlane l =>
      normalize_radius Qeq_bool clip
        (fun c s pl => gauss_blur_float h c s None mode (Some pl))
        l (normalize_planes clip planes)
  | Scalar s => gauss_blur_float h clip s taps mode planes
  end.

(** [radius == 1]: an int equal to one; a list never is. *)
Definition is_one (radius : RadiusSpec Z) : bool :=
  match radius with
  | Scalar r => r =? 1
  | PerPlane _ => false
  end.

(** median_blur (lines 237-255). *)
Definition median_blur (h : Host) (clip : VideoNode) (radius : RadiusSpec Z)
    (mode : ConvMode) (planes : PlanesT) : Result VideoNode :=
  if is_one radius && (mode_eqb mode HV || mode_eqb mode SQUARE)
  then Ok (Call "std" "Median" [clip] [VPlanesT planes])
  else Ok (norm_expr [clip]
             (map (fun r => median_expr (expr_matrix h r mode)) (to_arr radius))
             planes).

(** min_blur with an int radius (lines 197, 202-210). *)
Definition min_blur_int (h : Host) (clip : VideoNode) (radius : Z)
    (mode : ConvMode) (planes0 : PlanesT) : Result VideoNode :=
  let planes := normalize_planes clip planes0 in
  let blurred :=
    Call "BlurMatrix" "__call__" [clip]
      [VKernel (BINOMIAL (Scalar radius) mode); VPlanes planes] in
  median <- median_blur h clip (Scalar radius) mode (Some planes) ;;
  Ok (norm_expr [clip; blurred; median] [min_blur_expr] (Some planes)).

(** min_blur (lines 187-210).  The normalizer is given no keyword. *)
Definition min_blur (h : Host) (clip : VideoNode) (radius : RadiusSpec Z)
    (mode : ConvMode) (planes : PlanesT) : Result VideoNode :=
  match radius with
  | PerPlane l =>
      normalize_radius Z.eqb clip
        (fun c r pl => min_blur_int h c r HV (Some pl))
        l (normalize_planes clip planes)
  | Scalar r => min_blur_int h clip r mode planes
  end.

(** sbr (lines 213-234).  The radius goes to BlurMatrix.BINOMIAL as given. *)
Definition sbr (clip : VideoNode) (radius : RadiusSpec Z) (mode : ConvMode)
    (planes0 : PlanesT) : Result VideoNode :=
  let planes := normalize_planes clip planes0 in
  let blur_kernel := BINOMIAL radius mode in
  let blurred :=
    Call "BlurMatrix" "__call__" [clip] [VKernel blur_kernel; VPlanes planes] in
  let diff := Call "std" "MakeDiff" [clip; blurred] [VPlanes planes] in
  let blurred_diff :=
    Call "BlurMatrix" "__call__" [diff] [VKernel blur_kernel; VPlanes planes] in
  let limited_diff := norm_expr [diff; blurred_diff] [sbr_expr] (Some planes) in
  Ok (Call "std" "MakeDiff" [clip; limited_diff] [VPlanes planes]).

Definition opt_int (o : option Z) : PyVal :=
  match o with
  | Some n => VInt n
  | None => VNone
  end.

Definition opt_clip (o : option VideoNode) : list VideoNode :=
  match o with
  | Some c => [c]
  | None => []
  end.

(** FunctionUtil(clip, bilateral, planes).norm_seq(v): the per-plane form of
    a float or list argument, passed on to the plugin as it comes. *)
Definition norm_seq (planes : PlanesT) (v : RadiusSpec Q) : list PyVal :=
  [VPlanesT planes; VSeq v].

(** bilateral (lines 258-285).  [gpu] is [None], [True] or [False]; the CPU
    branch is taken only for [False]. *)
Definition bilateral (h : Host) (clip : VideoNode) (sigmaS sigmaR : RadiusSpec Q)
    (ref : option VideoNode) (radius : option (RadiusSpec Z)) (device_id : Z)
    (num_streams : option Z) (use_shared_memory : bool)
    (block_x block_y : option Z) (planes : PlanesT) (gpu : option bool)
    : Result VideoNode :=
  let sigmaS := norm_seq planes sigmaS in
  let sigmaR := norm_seq planes sigmaR in
  match gpu with
  | Some false =>
      let bits := get_depth clip in
      let clip := if 16 <? bits then Depth clip 16 else clip in
      let ref :=
        match ref with
        | Some r => if negb (format_eqb (format_of clip) (format_of r))
                    then Some (DepthOf r clip) else Some r
        | None => None
        end in
      let clip := Call "vszip" "Bilateral" (clip :: opt_clip ref) (sigmaS ++ sigmaR) in
      Ok (Depth clip bits)
  | _ =>
      let basic_args := sigmaS ++ sigmaR ++ [VRadius radius; VInt device_id] in
      let new_args := [opt_int num_streams; VBool use_shared_memory] in
      if hasattr h "bilateralgpu_rtc"
      then Ok (Call "bilateralgpu_rtc" "Bilateral" (clip :: opt_clip ref)
                 (basic_args ++ new_args ++ [opt_int block_x; opt_int block_y]))
      else Ok (Call "bilateralgpu" "Bilateral" (clip :: opt_clip ref)
                 (basic_args ++ new_args))
  end.

(** [a << n]: a negative count is a ValueError. *)
Definition py_shiftl (a n : Z) : Result Z :=
  if n <? 0 then Raise (ValueError "negative shift count") else Ok (Z.shiftl a n).

(** flux_smooth (lines 288-307). *)
Definition flux_smooth (clip : VideoNode) (radius threshold scenechange : Z)
    (planes0 : PlanesT) : Result VideoNode :=
  if (radius <? 1) || (7 <? radius)
  then raise_named "CustomIndexError"
         (CustomIndexError "Radius must be between 1 and 7 (inclusive)!"
            "flux_smooth" radius)
  else
    let planes := normalize_planes clip planes0 in
    threshold <- py_shiftl threshold (bits_per_sample (format_of clip) - 8) ;;
    let cthreshold := if mem 1 planes || mem 2 planes then threshold else 0 in
    let median := Call "tmedian" "TemporalMedian" [clip] [VInt radius; VPlanes planes] in
    let average :=
      Call "focus2" "TemporalSoften2" [clip]
        [VInt radius; VInt threshold; VInt cthreshold; VInt scenechange] in
    Ok (Call "vsrgtools" "limit_filter" [average; clip; median]
          [VStr "DIFF_MIN"; VPlanes planes]).

(** *** Reading a result back *)

(** The clip a node's plugin call received as its first input. *)
Definition primitive_input (c : VideoNode) : option VideoNode :=
  match c with
  | Call _ _ (c0 :: _) _ => Some c0
  | _ => None
  end.


Definition is_depth (c : VideoNode) : bool :=
  match c with
  | Depth _ _ | DepthOf _ _ => true
  | _ => false
  end.

(** The direct 3x3 median the std.Median primitive computes for one pixel:
    the fifth of the nine sorted samples of the window. *)
Definition median3x3 (window : list Z) : Z := nth 4 (sort_asc window) 0.

(** *** Concrete hosts and clips used to exercise the operators *)

(** Offsets of a line or square neighbourhood without its centre. *)
Definition span (r : Z) : list Z := map (fun i => Z.of_nat i - r) (seq 0 (Z.to_nat (2 * r + 1))).

Definition neighbourhood (r : Z) (m : ConvMode) : list (Z * Z) :=
  let all :=
    match m with
    | HORIZONTAL => map (fun x => (x, 0)) (span r)
    | VERTICAL => map (fun y => (0, y)) (span r)
    | SQUARE | HV => flat_map (fun y => map (fun x => (x, y)) (span r)) (span r)
    end in
  filter (fun c => negb ((fst c =? 0) && (snd c =? 0))) all.

Definition taps_or (default : Z) (sigma : Q) (taps : option Z) : Z :=
  match taps with
  | Some t => t
  | None => default
  end.

(** A host with none of the optional plugins and no akarin expressions. *)
Definition bare_host : Host := mkHost [] false (taps_or 3) neighbourhood.

(** A host with the GPU bilateral plugins. *)
Definition gpu_host : Host :=
  mkHost ["bilateralgpu_rtc"; "bilateralgpu"; "akarin"] true (taps_or 3) neighbourhood.

Definition yuv420p8 : VideoNode := Source "clip" (mkFormat INTEGER 8 3) 640 480.
Definition yuv444ps : VideoNode := Source "clip" (mkFormat FLOAT 32 3) 640 480.

(** A horizontal ramp: the sample at offset dx is 20 + 5 * dx. *)
Definition ramp_env : PixelEnv := mkPixelEnv (fun _ dx _ => 20 + 5 * dx) 128.

(** A 3x3 window with a single spike at its centre. *)
Definition spike_env : PixelEnv :=
  mkPixelEnv (fun _ dx dy => if (dx =? 0) && (dy =? 0) then 255 else 0) 128.

(** The engine's output stage for an integer format: the result is stored
    saturated to the sample range of [bits] bits. *)
Definition store_sample (bits v : Z) : Z := Z.max 0 (Z.min v (2 ^ bits - 1)).

Definition pixel_out (bits : Z) (env : PixelEnv) (p : ExprProgram) : option Z :=
  option_map (store_sample bits) (eval env p).

Definition valid_sample (bits v : Z) : Prop := 0 <= v <= 2 ^ bits - 1.

(** Two differences have the same sign when both or neither is positive,
    which is how the engine's [xor] reads them. *)
Definition same_sign (d1 d2 : Z) : Prop := 0 < d1 <-> 0 < d2.

(* ===================================================================== *)
(** ** side_box_blur for one radius, and samples through sbr *)
(* ===================================================================== *)

(** Python's [range(a, b)]. *)
Definition py_range (a b : Z) : list Z :=
  map (fun k => a + Z.of_nat k) (seq 0 (Z.to_nat (b - a))).

(** Line 67: [(1 if i <= 0 else 0) for i in range(-radius, radius + 1)]. *)
Definition half_kernel (radius : Z) : list Z :=
  map (fun i => if i <=? 0 then 1 else 0) (py_range (- radius) (radius + 1)).

(** Calls inside side_box_blur can fail in ways the other operators cannot:
    a TypeError from binding keyword arguments, or an error of a plugin. *)
Inductive PyError : Type :=
| Exn (e : PyExn)
| TypeError (msg : string)
| PluginError (msg : string).

Inductive Outcome (A : Type) : Type :=
| Returned (a : A)
| Failed (e : PyError).

Arguments Returned {A} a.
Arguments Failed {A} e.

Definition and_then {A B : Type} (o : Outcome A) (k : A -> Outcome B) : Outcome B :=
  match o with
  | Returned a => k a
  | Failed e => Failed e
  end.

Notation "x <~ o ;; k" := (and_then o (fun x => k))
  (at level 61, o at next level, right associativity).

(** A generator expression consumed by [list(...)]: the items are produced
    in order and the first failure ends the evaluation. *)
Fixpoint collect {A B : Type} (f : A -> Outcome (list B)) (l : list A)
    : Outcome (list B) :=
  match l with
  | [] => Returned []
  | a :: t => bs <~ f a ;; rest <~ collect f t ;; Returned (bs ++ rest)
  end.

Definition enumerate {A : Type} (l : list A) : list (nat * A) :=
  combine (seq 0 (List.length l)) l.

(** The parameters of box_blur (lines 26-30). *)
Definition box_blur_params : list string :=
  ["clip"; "radius"; "passes"; "mode"; "planes"].

(** The first keyword of a call that the function has no parameter for. *)
Fixpoint unexpected_keyword (params : list string) (kwargs : list (string * PyVal))
    : option string :=
  match kwargs with
  | [] => None
  | (k, _) :: rest =>
      if existsb (String.eqb k) params then unexpected_keyword params rest
      else Some k
  end.

Definition unexpected_keyword_message (func kw : string) : string :=
  String.append func
    (String.append "() got an unexpected keyword argument '"
       (String.append kw "'")).

Section SideBoxScalar.

(** core.std.Convolution(clip, matrix=..., planes=..., mode=...) *)
Variable convolution : VideoNode -> list Z -> list nat -> ConvMode -> Outcome VideoNode.

(** box_blur(clip, **kwargs) for keywords that box_blur accepts. *)
Variable box_blur_kw : VideoNode -> list (string * PyVal) -> Outcome VideoNode.

(** Lines 89-126, which combine the intermediates. *)
Variable finish : list VideoNode -> Outcome VideoNode.

(** box_blur(clip, **kwargs): the keywords are bound to parameters first. *)
Definition call_box_blur (kwargs : list (string * PyVal)) (c : VideoNode)
    : Outcome VideoNode :=
  match unexpected_keyword box_blur_params kwargs with
  | Some k => Failed (TypeError (unexpected_keyword_message "box_blur" k))
  | None => box_blur_kw c kwargs
  end.

(** Lines 69-80: the three filters of one direction.  [blur_pt] is
    partial(box_blur, planes=planes), and the third filter adds the keywords
    hradius, vradius, hpasses and vpasses to it. *)
Definition side_filters (radius : Z) (planes : list nat)
    (h : Z) (hr : PyVal) (v : Z) (vr : PyVal) (mode : ConvMode)
    : list (VideoNode -> Outcome VideoNode) :=
  let conv_m1 := fun c => convolution c (half_kernel radius) planes mode in
  let conv_m2 := fun c => convolution c (rev (half_kernel radius)) planes mode in
  let blur_pt := fun kw => call_box_blur (("planes", VPlanes planes) :: kw) in
  [ conv_m1; conv_m2;
    blur_pt [ ("hradius", hr); ("vradius", vr);
              ("hpasses", VInt h); ("vpasses", VInt v) ] ].

(** Lines 82-87: each vertical intermediate is made when the outer loop
    reaches it, and every horizontal filter is applied to it, except for
    the pair i == j == 2. *)
Definition side_intermediates (clip : VideoNode) (radius : Z) (planes : list nat)
    : Outcome (list VideoNode) :=
  let vrt_filters := side_filters radius planes 0 VNone 1 (VInt radius) VERTICAL in
  let hrz_filters := side_filters radius planes 1 (VInt radius) 0 VNone HORIZONTAL in
  collect
    (fun iv =>
       vrt_intermediate <~ snd iv clip ;;
       collect
         (fun jh =>
            if negb ((fst iv =? fst jh)%nat && (fst jh =? 2)%nat)
            then x <~ snd jh vrt_intermediate ;; Returned [x]
            else Returned [])
         (enumerate hrz_filters))
    (enumerate vrt_filters).

(** side_box_blur for an int radius (lines 67-126). *)
Definition side_box_scalar (clip : VideoNode) (radius : Z) (planes : list nat)
    : Outcome VideoNode :=
  intermediates <~ side_intermediates clip radius planes ;;
  finish intermediates.

End SideBoxScalar.

(** std.MakeDiff at one sample of an integer format: a - b + neutral, stored
    saturated. *)
Definition make_diff (bits a b : Z) : Z := store_sample bits (a - b + 2 ^ (bits - 1)).

(** sbr at one pixel (lines 223-234): [x] is the sample of the clip,
    [blurred] the binomial blur of the clip and [blurred_diff] the binomial
    blur of the difference clip at that pixel. *)
Definition sbr_pixel (bits x blurred blurred_diff : Z) : option Z :=
  let nv := 2 ^ (bits - 1) in
  let diff := make_diff bits x blurred in
  match pixel_out bits (pointwise [diff; blurred_diff] nv) sbr_expr with
  | Some limited_diff => Some (make_diff bits x limited_diff)
  | None => None
  end.





(** The reference clip a Bilateral call received, when it received one. *)
Definition primitive_ref (c : VideoNode) : option VideoNode :=
  match c with
  | Call _ _ (_ :: r :: _) _ => Some r
  | _ => None
  end.

(* ===================================================================== *)
(** ** Facts about the engine *)
(* ===================================================================== *)

Lemma agree_same_sign (d1 d2 : Z) : agree d1 d2 = true <-> same_sign d1 d2.
Proof.
  unfold agree, same_sign, truthy.
  destruct (0 <? d1) eqn:E1; destruct (0 <? d2) eqn:E2; simpl;
    rewrite ?Z.ltb_lt, ?Z.ltb_ge in *; split; intros; try lia; try discriminate;
    try reflexivity.
Qed.

Lemma store_sample_valid (bits v : Z) : valid_sample bits v -> store_sample bits v = v.
Proof. unfold valid_sample, store_sample. lia. Qed.

Lemma insert_asc_perm (v : Z) (l : list Z) : Permutation (insert_asc v l) (v :: l).
Proof.
  induction l as [|h t IH]; simpl.
  - apply Permutation_refl.
  - destruct (v <=? h).
    + apply Permutation_refl.
    + apply perm_trans with (h :: v :: t).
      * now apply perm_skip.
      * apply perm_swap.
Qed.

Lemma sort_asc_perm (l : list Z) : Permutation (sort_asc l) l.
Proof.
  induction l as [|h t IH]; simpl.
  - apply perm_nil.
  - apply perm_trans with (h :: sort_asc t).
    + apply insert_asc_perm.
    + now apply perm_skip.
Qed.

Lemma sort_asc_length (l : list Z) : List.length (sort_asc l) = List.length l.
Proof. apply Permutation_length, sort_asc_perm. Qed.

Lemma insert_asc_sorted (v : Z) (l : list Z) :
  StronglySorted Z.le l -> StronglySorted Z.le (insert_asc v l).
Proof.
  induction 1 as [|h t Hs IH Hall]; simpl.
  - constructor; constructor.
  - destruct (v <=? h) eqn:E.
    + apply Z.leb_le in E. constructor.
      * now constructor.
      * constructor; [exact E|].
        eapply Forall_impl; [|exact Hall]. intros; lia.
    + apply Z.leb_gt in E. constructor; [exact IH|].
      eapply Permutation_Forall.
      * apply Permutation_sym, insert_asc_perm.
      * constructor; [lia | exact Hall].
Qed.

Lemma sort_asc_sorted (l : list Z) : StronglySorted Z.le (sort_asc l).
Proof.
  induction l as [|h t IH]; simpl.
  - constructor.
  - now apply insert_asc_sorted.
Qed.

Lemma sorted_nth_le (l : list Z) :
  StronglySorted Z.le l ->
  forall i j, (i <= j)%nat -> (j < List.length l)%nat -> nth i l 0 <= nth j l 0.
Proof.
  induction 1 as [|h t Hs IH Hall]; intros i j Hij Hj; simpl in Hj.
  - lia.
  - destruct i as [|i], j as [|j]; simpl; try lia.
    + rewrite Forall_forall in Hall. apply Hall, nth_In. lia.
    + apply IH; lia.
Qed.

(** A sorted list is determined by its elements. *)
Lemma sorted_perm_eq (l1 : list Z) :
  StronglySorted Z.le l1 ->
  forall l2, StronglySorted Z.le l2 -> Permutation l1 l2 -> l1 = l2.
Proof.
  induction 1 as [|h1 t1 Hs1 IH Hall1]; intros l2 Hs2 Hp.
  - apply Permutation_nil in Hp. now subst.
  - destruct l2 as [|h2 t2].
    + apply Permutation_sym, Permutation_nil in Hp. discriminate.
    + inversion Hs2 as [|? ? Hs2' Hall2]; subst.
      assert (h1 = h2) as ->.
      { rewrite Forall_forall in Hall1, Hall2.
        assert (In h1 (h2 :: t2)) as [->|Hin1]
          by (eapply Permutation_in; [exact Hp | now left]); [reflexivity|].
        assert (In h2 (h1 :: t1)) as [->|Hin2]
          by (eapply Permutation_in; [apply Permutation_sym; exact Hp | now left]);
          [reflexivity|].
        specialize (Hall1 _ Hin2). specialize (Hall2 _ Hin1). lia. }
      f_equal. apply IH; [exact Hs2'|].
      eapply Permutation_cons_inv; exact Hp.
Qed.

Lemma sort_asc_rev (l : list Z) : sort_asc (rev l) = sort_asc l.
Proof.
  apply sorted_perm_eq; try apply sort_asc_sorted.
  apply perm_trans with (rev l); [apply sort_asc_perm|].
  apply perm_trans with l; [apply Permutation_sym, Permutation_rev|].
  apply Permutation_sym, sort_asc_perm.
Qed.

Lemma set_nth_length (n : nat) (v : Z) (l : list Z) :
  List.length (set_nth n v l) = List.length l.
Proof.
  revert n; induction l as [|h t IH]; intros [|n]; simpl; auto.
Qed.

Lemma set_nth_same (n : nat) (v : Z) (l : list Z) :
  (n < List.length l)%nat -> nth n (set_nth n v l) 0 = v.
Proof.
  revert n; induction l as [|h t IH]; intros [|n] H; simpl in *; try lia; auto.
  apply IH; lia.
Qed.

Lemma set_nth_other (n j : nat) (v : Z) (l : list Z) :
  j <> n -> nth j (set_nth n v l) 0 = nth j l 0.
Proof.
  revert n j; induction l as [|h t IH]; intros [|n] [|j] H; simpl; auto; try lia.
Qed.

(** swapN brings the N-th value to the top and moves nothing else but the
    old top. *)
Lemma swap_top_spec (n : nat) (st : list Z) :
  (n < List.length st)%nat ->
  exists st',
    swap_top n st = Some st' /\
    List.length st' = List.length st /\
    nth 0 st' 0 = nth n st 0 /\
    forall j, j <> O -> j <> n -> nth j st' 0 = nth j st 0.
Proof.
  intros Hn. destruct st as [|top rest]; [simpl in Hn; lia|].
  unfold swap_top. apply Nat.ltb_lt in Hn as Hb. rewrite Hb.
  eexists; split; [reflexivity|]. repeat split.
  - now rewrite !set_nth_length.
  - destruct n as [|n]; [reflexivity|].
    rewrite set_nth_other by lia. reflexivity.
  - intros j Hj0 Hjn. rewrite !set_nth_other by lia. reflexivity.
Qed.

Lemma run_app (env : PixelEnv) (p q : ExprProgram) (m : Machine) :
  run env (p ++ q) m =
  match run env p m with
  | Some m' => run env q m'
  | None => None
  end.
Proof.
  revert m; induction p as [|i p IH]; intros m; simpl; [reflexivity|].
  destruct (step env i m); [apply IH | reflexivity].
Qed.

Lemma run_loads (env : PixelEnv) (coords : list (Z * Z)) (st : list Z) (rg : Regs) :
  run env (map (fun c => Load 0 (fst c) (snd c)) coords) (st, rg) =
  Some (rev (map (fun c => sample env 0 (fst c) (snd c)) coords) ++ st, rg).
Proof.
  revert st; induction coords as [|c t IH]; intros st; simpl; [reflexivity|].
  rewrite IH, <- app_assoc. reflexivity.
Qed.

(** The instruction lists are the programs the source spells out. *)
Lemma min_blur_text_parses : parse min_blur_text = Some min_blur_expr.
Proof. reflexivity. Qed.

Lemma sbr_text_parses : parse sbr_text = Some sbr_expr.
Proof. reflexivity. Qed.

Lemma median_text_parses :
  Forall (fun coords => parse (median_text coords) = Some (median_expr coords))
    [ neighbourhood 1 HORIZONTAL; neighbourhood 1 VERTICAL;
      neighbourhood 2 HORIZONTAL; neighbourhood 3 VERTICAL;
      neighbourhood 2 SQUARE; neighbourhood 3 HV ].
Proof. repeat constructor. Qed.

(** Line and square neighbourhoods without their centre have an even,
    non-zero number of offsets. *)
Lemma neighbourhood_sizes :
  map (fun rm => List.length (neighbourhood (fst rm) (snd rm)))
    [ (1, HORIZONTAL); (1, VERTICAL); (1, SQUARE); (2, HORIZONTAL); (2, HV);
      (3, VERTICAL); (3, SQUARE) ] =
  [2; 2; 8; 4; 24; 6; 48]%nat.
Proof. reflexivity. Qed.

Lemma min_blur_expr_eval (x a b nv : Z) :
  eval (pointwise [x; a; b] nv) min_blur_expr = Some (min_blur_merge x a b).
Proof.
  unfold eval, min_blur_expr, min_blur_merge, agree. cbn.
  destruct (xorb (truthy (x - a)) (truthy (x - b))); cbn; [reflexivity|].
  destruct (Z.abs (x - a) <? Z.abs (x - b)); reflexivity.
Qed.

Lemma sbr_expr_eval (d e nv : Z) :
  eval (pointwise [d; e] nv) sbr_expr = Some (sbr_merge nv d e).
Proof.
  unfold eval, sbr_expr, sbr_merge, agree. cbn.
  destruct (xorb (truthy (d - e)) (truthy (d - nv))); cbn; [reflexivity|].
  destruct (Z.abs (d - e) <? Z.abs (d - nv)); reflexivity.
Qed.

(** The limited residual of sbr stays between the neutral value and the
    residual, so the output stage never saturates it. *)
Lemma sbr_merge_valid (bits nv d e : Z) :
  valid_sample bits nv -> valid_sample bits d -> valid_sample bits (sbr_merge nv d e).
Proof.
  unfold valid_sample, sbr_merge, agree, truthy. intros Hn Hd.
  destruct (0 <? d - e) eqn:E1; destruct (0 <? d - nv) eqn:E2; simpl;
    rewrite ?Z.ltb_lt, ?Z.ltb_ge in *; try lia;
    destruct (Z.abs (d - e) <? Z.abs (d - nv)) eqn:E3;
    rewrite ?Z.ltb_lt, ?Z.ltb_ge in *; lia.
Qed.

Lemma min_blur_merge_valid (bits x a b : Z) :
  valid_sample bits x -> valid_sample bits a -> valid_sample bits b ->
  valid_sample bits (min_blur_merge x a b).
Proof.
  unfold min_blur_merge. intros Hx Ha Hb.
  destruct (agree _ _); [destruct (_ <? _)|]; assumption.
Qed.

Lemma step_SortN (env : PixelEnv) (n : nat) (st : list Z) (rg : Regs) :
  (n <= List.length st)%nat ->
  step env (SortN (Z.of_nat n)) (st, rg) =
  Some (sort_asc (firstn n st) ++ skipn n st, rg).
Proof.
  intros H. cbn [step]. rewrite Nat2Z.id.
  replace (0 <=? Z.of_nat n) with true by (symmetry; apply Z.leb_le; lia).
  apply Nat.leb_le in H. rewrite H. reflexivity.
Qed.

Lemma step_SwapN (env : PixelEnv) (n : nat) (st st' : list Z) (rg : Regs) :
  swap_top n st = Some st' ->
  step env (SwapN (Z.of_nat n)) (st, rg) = Some (st', rg).
Proof.
  intros H. cbn [step]. rewrite Nat2Z.id.
  replace (0 <=? Z.of_nat n) with true by (symmetry; apply Z.leb_le; lia).
  rewrite H. reflexivity.
Qed.

Lemma step_DropN (env : PixelEnv) (n : nat) (st : list Z) (rg : Regs) :
  (n <= List.length st)%nat ->
  step env (DropN (Z.of_nat n)) (st, rg) = Some (skipn n st, rg).
Proof.
  intros H. cbn [step]. rewrite Nat2Z.id.
  replace (0 <=? Z.of_nat n) with true by (symmetry; apply Z.leb_le; lia).
  apply Nat.leb_le in H. rewrite H. reflexivity.
Qed.

Lemma step_Store (env : PixelEnv) (v : string) (a : Z) (st : list Z) (rg : Regs) :
  step env (Store v) (a :: st, rg) = Some (st, (v, a) :: rg).
Proof. reflexivity. Qed.

(** The numbers the f-string of median_blur gets for a neighbourhood of
    [2 * k] offsets: st = 2k, sp = k - 1, dp = 2k - 2. *)
Lemma median_expr_shape (coords : list (Z * Z)) (k : nat) :
  (1 <= k)%nat -> List.length coords = (2 * k)%nat ->
  median_expr coords =
  map (fun c => Load 0 (fst c) (snd c)) coords ++
  [ SortN (Z.of_nat (2 * k)); SwapN (Z.of_nat (k - 1)); Store "min";
    SwapN (Z.of_nat (k - 1)); Store "max"; DropN (Z.of_nat (2 * k - 2));
    x_; Fetch "min"; Fetch "max"; Clip ].
Proof.
  intros Hk Hlen. unfold median_expr. rewrite length_map, Hlen.
  assert (Hsp : (Z.of_nat (2 * k) + 1) / 2 - 1 = Z.of_nat (k - 1)).
  { assert ((Z.of_nat (2 * k) + 1) / 2 = Z.of_nat k) as ->.
    { symmetry. apply Z.div_unique with 1; lia. }
    lia. }
  rewrite Hsp.
  replace (Z.of_nat (2 * k) + 1 - 1) with (Z.of_nat (2 * k)) by lia.
  replace (Z.of_nat (2 * k) - 2) with (Z.of_nat (2 * k - 2)) by lia.
  reflexivity.
Qed.

Lemma median_expr_eval (env : PixelEnv) (coords : list (Z * Z)) (k : nat) :
  (1 <= k)%nat -> List.length coords = (2 * k)%nat ->
  let s := sort_asc (map (fun c => sample env 0 (fst c) (snd c)) coords) in
  eval env (median_expr coords) =
  Some (clamp (sample env 0 0 0) (nth (k - 1) s 0) (nth k s 0)).
Proof.
  intros Hk Hlen s.
  rewrite (median_expr_shape coords k Hk Hlen).
  unfold eval. rewrite run_app, run_loads, app_nil_r.
  set (nb := map (fun c => sample env 0 (fst c) (snd c)) coords) in *.
  assert (Hnb : List.length (rev nb) = (2 * k)%nat)
    by (unfold nb; rewrite length_rev, length_map; exact Hlen).
  cbn [run]. rewrite step_SortN by lia.
  rewrite firstn_all2, skipn_all2, app_nil_r, sort_asc_rev by lia.
  fold s.
  assert (Hs : List.length s = (2 * k)%nat)
    by (unfold s; rewrite sort_asc_length, <- Hnb, length_rev; reflexivity).
  destruct (swap_top_spec (k - 1) s) as (s1 & E1 & L1 & T1 & O1); [lia|].
  rewrite (step_SwapN _ _ _ _ _ E1).
  destruct s1 as [|top1 r1]; [simpl in L1; lia|].
  rewrite step_Store. simpl in L1, T1.
  destruct (swap_top_spec (k - 1) r1) as (s2 & E2 & L2 & T2 & O2); [lia|].
  rewrite (step_SwapN _ _ _ _ _ E2).
  destruct s2 as [|top2 r2]; [simpl in L2; lia|].
  rewrite step_Store. simpl in L2, T2.
  rewrite step_DropN by lia. rewrite skipn_all2 by lia.
  cbn. subst top1. rewrite T2.
  specialize (O1 k). simpl in O1.
  replace (nth (k - 1) r1 0) with (nth k s 0).
  - reflexivity.
  - rewrite <- O1 by lia. destruct k as [|k']; [lia|].
    replace (S k' - 1)%nat with k' by lia. reflexivity.
Qed.

(* ===================================================================== *)
(** ** The agreement merge of min_blur and sbr *)
(* ===================================================================== *)

(** C1, as the specification words it, fails: when the differences to the
    two candidates disagree in sign the merge of min_blur returns the source
    pixel, not the second candidate, and the limiter of sbr returns the
    neutral value.  With x = 10, a = 5, b = 15 the differences are 5 and -5
    and the program yields 10; with residual 140, re-blur 150 and neutral 128
    the differences are -10 and 12 and the program yields 128. *)
Lemma agreement_merge_disagreement_keeps_source :
  ~ same_sign (10 - 5) (10 - 15) /\
  eval (pointwise [10; 5; 15] 128) min_blur_expr = Some 10 /\
  eval (pointwise [10; 5; 15] 128) min_blur_expr <> Some 15 /\
  ~ same_sign (140 - 150) (140 - 128) /\
  eval (pointwise [140; 150] 128) sbr_expr = Some 128 /\
  eval (pointwise [140; 150] 128) sbr_expr <> Some 150 /\
  ~ (forall x a b nv : Z,
        ~ same_sign (x - a) (x - b) ->
        eval (pointwise [x; a; b] nv) min_blur_expr = Some b).
Proof.
  assert (E1 : eval (pointwise [10; 5; 15] 128) min_blur_expr = Some 10)
    by reflexivity.
  assert (N1 : ~ same_sign (10 - 5) (10 - 15)) by (unfold same_sign; lia).
  split; [exact N1|]. split; [exact E1|].
  split; [rewrite E1; discriminate|].
  split; [unfold same_sign; lia|].
  split; [reflexivity|].
  split; [rewrite sbr_expr_eval; discriminate|].
  intros H. specialize (H 10 5 15 128 N1). rewrite E1 in H. discriminate.
Qed.

(** C1 (amended): the merge of min_blur returns the binomial candidate [a]
    when the differences x - a and x - b have the same sign and
    |x - a| < |x - b|, the median candidate [b] when they have the same sign
    and |x - b| <= |x - a|, and the source pixel [x] when the signs disagree.
    The limiter of sbr, over the residual [d], its re-blur [e] and the
    neutral value, returns d - e + neutral, [d] and neutral in the same three
    cases of the differences d - e and d - neutral.  Valid samples give a
    valid sample, which the output stage stores as it is. *)
Theorem agreement_merge_cases :
  forall x a b d e nv : Z,
    (same_sign (x - a) (x - b) -> Z.abs (x - a) < Z.abs (x - b) ->
     eval (pointwise [x; a; b] nv) min_blur_expr = Some a) /\
    (same_sign (x - a) (x - b) -> Z.abs (x - b) <= Z.abs (x - a) ->
     eval (pointwise [x; a; b] nv) min_blur_expr = Some b) /\
    (~ same_sign (x - a) (x - b) ->
     eval (pointwise [x; a; b] nv) min_blur_expr = Some x) /\
    (same_sign (d - e) (d - nv) -> Z.abs (d - e) < Z.abs (d - nv) ->
     eval (pointwise [d; e] nv) sbr_expr = Some (d - e + nv)) /\
    (same_sign (d - e) (d - nv) -> Z.abs (d - nv) <= Z.abs (d - e) ->
     eval (pointwise [d; e] nv) sbr_expr = Some d) /\
    (~ same_sign (d - e) (d - nv) ->
     eval (pointwise [d; e] nv) sbr_expr = Some nv) /\
    (forall bits,
        valid_sample bits x -> valid_sample bits a -> valid_sample bits b ->
        pixel_out bits (pointwise [x; a; b] nv) min_blur_expr =
        eval (pointwise [x; a; b] nv) min_blur_expr) /\
    (forall bits,
        valid_sample bits d -> valid_sample bits nv ->
        pixel_out bits (pointwise [d; e] nv) sbr_expr =
        eval (pointwise [d; e] nv) sbr_expr).
Proof.
  intros x a b d e nv.
  rewrite min_blur_expr_eval, sbr_expr_eval.
  unfold pixel_out. rewrite min_blur_expr_eval, sbr_expr_eval.
  unfold min_blur_merge, sbr_merge.
  repeat split.
  - intros Hs Hlt. apply agree_same_sign in Hs. rewrite Hs.
    apply Z.ltb_lt in Hlt. now rewrite Hlt.
  - intros Hs Hle. apply agree_same_sign in Hs. rewrite Hs.
    apply Z.ltb_ge in Hle. now rewrite Hle.
  - intros Hn. destruct (agree (x - a) (x - b)) eqn:E; [|reflexivity].
    apply agree_same_sign in E. contradiction.
  - intros Hs Hlt. apply agree_same_sign in Hs. rewrite Hs.
    apply Z.ltb_lt in Hlt. now rewrite Hlt.
  - intros Hs Hle. apply agree_same_sign in Hs. rewrite Hs.
    apply Z.ltb_ge in Hle. now rewrite Hle.
  - intros Hn. destruct (agree (d - e) (d - nv)) eqn:E; [|reflexivity].
    apply agree_same_sign in E. contradiction.
  - intros bits Hx Ha Hb. simpl. f_equal. apply store_sample_valid.
    now apply (min_blur_merge_valid bits x a b).
  - intros bits Hd Hn. simpl. f_equal. apply store_sample_valid.
    now apply (sbr_merge_valid bits nv d e).
Qed.

Lemma agreement_merge_cases_witness :
  eval (pointwise [10; 8; 5] 128) min_blur_expr = Some 8 /\
  eval (pointwise [10; 5; 8] 128) min_blur_expr = Some 8 /\
  eval (pointwise [10; 5; 15] 128) min_blur_expr = Some 10 /\
  eval (pointwise [140; 135] 128) sbr_expr = Some (140 - 135 + 128) /\
  eval (pointwise [130; 120] 128) sbr_expr = Some 130 /\
  eval (pointwise [140; 150] 128) sbr_expr = Some 128 /\
  pixel_out 8 (pointwise [10; 5; 15] 128) min_blur_expr = Some 10.
Proof.
  destruct (agreement_merge_cases 10 8 5 140 135 128) as (H1 & _ & _ & H4 & _).
  destruct (agreement_merge_cases 10 5 8 130 120 128) as (_ & H2 & _ & _ & H5 & _).
  destruct (agreement_merge_cases 10 5 15 140 150 128)
    as (_ & _ & H3 & _ & _ & H6 & H7 & _).
  split; [apply H1; [unfold same_sign; lia | lia]|].
  split; [apply H2; [unfold same_sign; lia | lia]|].
  split; [apply H3; unfold same_sign; lia|].
  split; [apply H4; [unfold same_sign; lia | lia]|].
  split; [apply H5; [unfold same_sign; lia | lia]|].
  split; [apply H6; unfold same_sign; lia|].
  rewrite (H7 8) by (unfold valid_sample; simpl; lia).
  apply H3; unfold same_sign; lia.
Defined.

(* ===================================================================== *)
(** ** median_blur *)
(* ===================================================================== *)

(** C7: median_blur with the int radius 1 and mode HV or SQUARE returns the
    call of the native std.Median primitive on the clip, whose value at a
    pixel is the median of its 3x3 window (0 for a single 255 spike on a 0
    background); every other radius or mode returns a norm_expr node holding
    one sorting-network program per radius. *)
Theorem median_blur_dispatch :
  forall (h : Host) (clip : VideoNode) (radius : RadiusSpec Z) (mode : ConvMode)
         (planes : PlanesT),
    (radius = Scalar 1 -> mode = HV \/ mode = SQUARE ->
     median_blur h clip radius mode planes =
     Ok (Call "std" "Median" [clip] [VPlanesT planes])) /\
    (radius <> Scalar 1 \/ (mode <> HV /\ mode <> SQUARE) ->
     median_blur h clip radius mode planes =
     Ok (norm_expr [clip]
           (map (fun r => median_expr (expr_matrix h r mode)) (to_arr radius))
           planes)) /\
    median3x3 [0; 0; 0; 0; 255; 0; 0; 0; 0] = 0.
Proof.
  intros h clip radius mode planes. split; [|split].
  - intros -> [-> | ->]; reflexivity.
  - intros [Hr | [Hhv Hsq]]; unfold median_blur.
    + destruct radius as [r | l]; simpl; [|reflexivity].
      destruct (r =? 1) eqn:E; [|reflexivity].
      apply Z.eqb_eq in E. subst. congruence.
    + destruct mode; try congruence;
        rewrite Bool.andb_false_r; reflexivity.
  - reflexivity.
Qed.

Lemma median_blur_dispatch_witness :
  median_blur bare_host yuv420p8 (Scalar 1) HV None =
    Ok (Call "std" "Median" [yuv420p8] [VPlanesT None]) /\
  median_blur bare_host yuv420p8 (Scalar 2) HV None =
    Ok (norm_expr [yuv420p8] [median_expr (neighbourhood 2 HV)] None) /\
  median_blur bare_host yuv420p8 (Scalar 1) HORIZONTAL None =
    Ok (norm_expr [yuv420p8] [median_expr (neighbourhood 1 HORIZONTAL)] None).
Proof.
  split; [|split].
  - apply (median_blur_dispatch bare_host yuv420p8 (Scalar 1) HV None);
      [reflexivity | left; reflexivity].
  - apply (median_blur_dispatch bare_host yuv420p8 (Scalar 2) HV None).
    left. discriminate.
  - apply (median_blur_dispatch bare_host yuv420p8 (Scalar 1) HORIZONTAL None).
    right. split; discriminate.
Defined.

(** C6, as the specification words it, fails at radius 0, a radius other than
    1 that takes the expression path like any other.  The neighbourhood
    without its centre is then empty, the counts of lines 245-248 are st = 0,
    sp = -1 and dp = -2, and the program reads
    "sort0 swap-1 min! swap-1 max! drop-2 x min@ max@ clip": it has no two
    central values to clip to and the engine evaluates it to nothing. *)
Lemma median_blur_radius_zero_program_yields_nothing :
  median_blur bare_host yuv420p8 (Scalar 0) HV None =
    Ok (norm_expr [yuv420p8] [median_expr (expr_matrix bare_host 0 HV)] None) /\
  expr_matrix bare_host 0 HV = [] /\
  median_expr [] =
    [ SortN 0; SwapN (-1); Store "min"; SwapN (-1); Store "max"; DropN (-2);
      x_; Fetch "min"; Fetch "max"; Clip ] /\
  parse (median_text []) = Some (median_expr []) /\
  (forall env, eval env (median_expr (expr_matrix bare_host 0 HV)) = None) /\
  ~ (forall env, exists lo hi,
        eval env (median_expr (expr_matrix bare_host 0 HV)) =
        Some (clamp (sample env 0 0 0) lo hi)).
Proof.
  split; [reflexivity|]. split; [reflexivity|]. split; [reflexivity|].
  split; [reflexivity|]. split; [intros env; reflexivity|].
  intros H. destruct (H spike_env) as (lo & hi & Hev). discriminate Hev.
Qed.

(** C6 (amended): whenever median_blur takes the expression path, the
    program it compiles for a radius whose neighbourhood (centre excluded)
    has 2k >= 2 offsets, as every radius of at least 1 has, evaluates to the
    source pixel clipped to [lo, hi], where lo and hi are the two central
    values (positions k-1 and k) of the sorted neighbourhood samples;
    lo <= hi, so the result lies in that interval.  Radius 0, whose
    neighbourhood is empty, is not covered. *)
Theorem median_blur_program_clips_to_central_pair :
  forall (h : Host) (clip : VideoNode) (radius : RadiusSpec Z) (mode : ConvMode)
         (planes : PlanesT) (env : PixelEnv),
    is_one radius && (mode_eqb mode HV || mode_eqb mode SQUARE) = false ->
    exists progs,
      median_blur h clip radius mode planes = Ok (norm_expr [clip] progs planes) /\
      progs = map (fun r => median_expr (expr_matrix h r mode)) (to_arr radius) /\
      forall (r : Z) (k : nat),
        In r (to_arr radius) ->
        (1 <= k)%nat ->
        List.length (expr_matrix h r mode) = (2 * k)%nat ->
        let nb := map (fun c => sample env 0 (fst c) (snd c)) (expr_matrix h r mode) in
        let lo := nth (k - 1) (sort_asc nb) 0 in
        let hi := nth k (sort_asc nb) 0 in
        In (median_expr (expr_matrix h r mode)) progs /\
        eval env (median_expr (expr_matrix h r mode)) =
          Some (clamp (sample env 0 0 0) lo hi) /\
        lo <= hi /\
        lo <= clamp (sample env 0 0 0) lo hi <= hi /\
        StronglySorted Z.le (sort_asc nb) /\
        Permutation (sort_asc nb) nb.
Proof.
  intros h clip radius mode planes env Hpath.
  eexists. split; [|split; [reflexivity|]].
  - unfold median_blur. rewrite Hpath. reflexivity.
  - intros r k Hin Hk Hlen nb lo hi.
    assert (Hle : lo <= hi).
    { apply sorted_nth_le; [apply sort_asc_sorted | lia |].
      unfold nb. rewrite sort_asc_length, length_map. lia. }
    split; [apply in_map_iff; exists r; split; [reflexivity | exact Hin]|].
    split; [apply (median_expr_eval env _ k Hk Hlen)|].
    split; [exact Hle|].
    split; [unfold clamp; lia|].
    split; [apply sort_asc_sorted | apply sort_asc_perm].
Qed.

(** On the ramp the neighbours at offsets -2, -1, 1, 2 are 10, 15, 25, 30 and
    the pixel is 20: the program returns 20, the pixel itself, which lies
    between the central pair 15 and 25 and is none of the neighbours. *)
Lemma median_blur_program_clips_to_central_pair_witness :
  exists progs,
    median_blur bare_host yuv420p8 (Scalar 2) HORIZONTAL None =
      Ok (norm_expr [yuv420p8] progs None) /\
    In (median_expr (neighbourhood 2 HORIZONTAL)) progs /\
    eval spike_env (median_expr (neighbourhood 2 HORIZONTAL)) = Some 0 /\
    eval ramp_env (median_expr (neighbourhood 2 HORIZONTAL)) = Some 20.
Proof.
  destruct (median_blur_program_clips_to_central_pair
              bare_host yuv420p8 (Scalar 2) HORIZONTAL None spike_env eq_refl)
    as (progs & Hm & _ & Hp).
  destruct (median_blur_program_clips_to_central_pair
              bare_host yuv420p8 (Scalar 2) HORIZONTAL None ramp_env eq_refl)
    as (progs' & _ & _ & Hq).
  exists progs. split; [exact Hm|].
  destruct (Hp 2 2%nat (or_introl eq_refl) (le_S 1 1 (le_n 1)) eq_refl)
    as (Hin & Hev & _).
  destruct (Hq 2 2%nat (or_introl eq_refl) (le_S 1 1 (le_n 1)) eq_refl)
    as (_ & Hramp & _).
  split; [exact Hin|]. split; [exact Hev | exact Hramp].
Defined.

(* ===================================================================== *)
(** ** box_blur *)
(* ===================================================================== *)

(** C9: box_blur with radius 0 returns the input clip itself: no backend is
    consulted and no filter node is built. *)
Theorem box_blur_radius_zero_identity :
  forall (h : Host) (clip : VideoNode) (passes : Z) (mode : ConvMode)
         (planes : PlanesT),
    box_blur h clip (Scalar 0) passes mode planes = Ok clip.
Proof. intros. reflexivity. Qed.

(** C5: for an int radius > 0, box_blur uses the vszip box blur when the
    host has it; otherwise, when the radius is at most 12 or the format is
    16-bit float, it applies the mean kernel of that radius; otherwise it uses
    the std.BoxBlur primitive. *)
Theorem box_blur_backend_priority :
  forall (h : Host) (clip : VideoNode) (radius passes : Z) (mode : ConvMode)
         (planes : PlanesT),
    0 < radius ->
    let pl := normalize_planes clip planes in
    (hasattr h "vszip" = true ->
     box_blur h clip (Scalar radius) passes mode planes =
     Ok (Call "vszip" "BoxBlur" [clip] (box_args pl radius passes mode))) /\
    (hasattr h "vszip" = false ->
     radius <= 12 \/ is_half_float (format_of clip) = true ->
     box_blur h clip (Scalar radius) passes mode planes =
     Ok (apply_kernel (MEAN radius mode) clip pl passes)) /\
    (hasattr h "vszip" = false ->
     12 < radius -> is_half_float (format_of clip) = false ->
     box_blur h clip (Scalar radius) passes mode planes =
     Ok (Call "std" "BoxBlur" [clip] (box_args pl radius passes mode))).
Proof.
  intros h clip radius passes mode planes Hpos pl.
  unfold box_blur, box_blur_int. fold pl.
  assert (E0 : (radius =? 0) = false) by (apply Z.eqb_neq; lia).
  rewrite E0. split; [|split].
  - intros ->. reflexivity.
  - intros -> [Hle | Hhalf].
    + assert (E : (12 <? radius) = false) by (apply Z.ltb_ge; lia).
      rewrite E. reflexivity.
    + rewrite Hhalf, Bool.andb_false_r. reflexivity.
  - intros -> Hgt ->. apply Z.ltb_lt in Hgt. rewrite Hgt. reflexivity.
Qed.

Lemma box_blur_backend_priority_witness :
  box_blur gpu_host yuv420p8 (Scalar 3) 1 HV None =
    Ok (apply_kernel (MEAN 3 HV) yuv420p8 [0; 1; 2]%nat 1) /\
  box_blur bare_host yuv420p8 (Scalar 20) 1 HV None =
    Ok (Call "std" "BoxBlur" [yuv420p8] (box_args [0; 1; 2]%nat 20 1 HV)) /\
  box_blur (mkHost ["vszip"] false (taps_or 3) neighbourhood) yuv420p8
           (Scalar 20) 1 HV None =
    Ok (Call "vszip" "BoxBlur" [yuv420p8] (box_args [0; 1; 2]%nat 20 1 HV)).
Proof.
  split; [|split].
  - apply (box_blur_backend_priority gpu_host yuv420p8 3 1 HV None);
      [lia | reflexivity | left; lia].
  - apply (box_blur_backend_priority bare_host yuv420p8 20 1 HV None);
      [lia | reflexivity | lia | reflexivity].
  - apply (box_blur_backend_priority
             (mkHost ["vszip"] false (taps_or 3) neighbourhood)
             yuv420p8 20 1 HV None); [lia | reflexivity].
Defined.

(* ===================================================================== *)
(** ** flux_smooth *)
(* ===================================================================== *)

(** C8: for a radius below 1 or above 7 flux_smooth raises CustomIndexError
    carrying the function name and the radius, and nothing else happens
    (no filter node is built); for a radius from 1 to 7 it raises no
    CustomIndexError. *)
Theorem flux_smooth_radius_validation :
  forall (clip : VideoNode) (radius threshold scenechange : Z) (planes : PlanesT),
    (radius < 1 \/ 7 < radius ->
     flux_smooth clip radius threshold scenechange planes =
     Raise (CustomIndexError "Radius must be between 1 and 7 (inclusive)!"
              "flux_smooth" radius)) /\
    (1 <= radius <= 7 ->
     forall msg func reason,
       flux_smooth clip radius threshold scenechange planes <>
       Raise (CustomIndexError msg func reason)).
Proof.
  intros clip radius threshold scenechange planes. unfold flux_smooth. split.
  - intros Hout.
    assert (E : (radius <? 1) || (7 <? radius) = true).
    { apply Bool.orb_true_iff. rewrite !Z.ltb_lt. exact Hout. }
    rewrite E. reflexivity.
  - intros Hin msg func reason.
    assert (E : (radius <? 1) || (7 <? radius) = false).
    { apply Bool.orb_false_iff. rewrite !Z.ltb_ge. lia. }
    rewrite E. unfold py_shiftl.
    destruct (bits_per_sample (format_of clip) - 8 <? 0); simpl; discriminate.
Qed.

Lemma flux_smooth_radius_validation_witness :
  flux_smooth yuv420p8 8 7 24 None =
    Raise (CustomIndexError "Radius must be between 1 and 7 (inclusive)!"
             "flux_smooth" 8) /\
  flux_smooth yuv420p8 0 7 24 None =
    Raise (CustomIndexError "Radius must be between 1 and 7 (inclusive)!"
             "flux_smooth" 0) /\
  flux_smooth yuv420p8 7 7 24 None <>
    Raise (CustomIndexError "Radius must be between 1 and 7 (inclusive)!"
             "flux_smooth" 7).
Proof.
  split; [|split].
  - apply (flux_smooth_radius_validation yuv420p8 8 7 24 None). right. lia.
  - apply (flux_smooth_radius_validation yuv420p8 0 7 24 None). left. lia.
  - apply (flux_smooth_radius_validation yuv420p8 7 7 24 None). lia.
Defined.

(** C10: for a valid radius and samples of at least 8 bits, flux_smooth
    passes the threshold shifted left by bits_per_sample - 8 to the temporal
    softener, and as chroma threshold the same value when plane 1 or plane 2
    is selected and 0 when neither is. *)
Theorem flux_smooth_threshold_scaling :
  forall (clip : VideoNode) (radius threshold scenechange : Z) (planes : PlanesT),
    1 <= radius <= 7 ->
    8 <= bits_per_sample (format_of clip) ->
    let pl := normalize_planes clip planes in
    let scaled := Z.shiftl threshold (bits_per_sample (format_of clip) - 8) in
    let cthreshold := if mem 1 pl || mem 2 pl then scaled else 0 in
    flux_smooth clip radius threshold scenechange planes =
      Ok (Call "vsrgtools" "limit_filter"
            [ Call "focus2" "TemporalSoften2" [clip]
                [VInt radius; VInt scaled; VInt cthreshold; VInt scenechange];
              clip;
              Call "tmedian" "TemporalMedian" [clip] [VInt radius; VPlanes pl] ]
            [VStr "DIFF_MIN"; VPlanes pl]) /\
    (mem 1 pl = false -> mem 2 pl = false -> cthreshold = 0) /\
    (mem 1 pl = true \/ mem 2 pl = true -> cthreshold = scaled).
Proof.
  intros clip radius threshold scenechange planes Hr Hbits pl scaled cthreshold.
  split; [|split].
  - unfold flux_smooth, py_shiftl.
    assert (E : (radius <? 1) || (7 <? radius) = false).
    { apply Bool.orb_false_iff. rewrite !Z.ltb_ge. lia. }
    assert (Eb : (bits_per_sample (format_of clip) - 8 <? 0) = false)
      by (apply Z.ltb_ge; lia).
    rewrite E, Eb. reflexivity.
  - intros H1 H2. unfold cthreshold. rewrite H1, H2. reflexivity.
  - intros H. unfold cthreshold.
    destruct H as [-> | ->]; [|rewrite Bool.orb_true_r]; reflexivity.
Qed.

Lemma flux_smooth_threshold_scaling_witness :
  flux_smooth (Source "clip" (mkFormat INTEGER 10 3) 640 480) 2 7 24 (Some [0%nat]) =
    Ok (Call "vsrgtools" "limit_filter"
          [ Call "focus2" "TemporalSoften2"
              [Source "clip" (mkFormat INTEGER 10 3) 640 480]
              [VInt 2; VInt 28; VInt 0; VInt 24];
            Source "clip" (mkFormat INTEGER 10 3) 640 480;
            Call "tmedian" "TemporalMedian"
              [Source "clip" (mkFormat INTEGER 10 3) 640 480]
              [VInt 2; VPlanes [0%nat]] ]
          [VStr "DIFF_MIN"; VPlanes [0%nat]]).
Proof.
  apply (flux_smooth_threshold_scaling
           (Source "clip" (mkFormat INTEGER 10 3) 640 480) 2 7 24 (Some [0%nat])).
  - lia.
  - simpl. lia.
Defined.

(* ===================================================================== *)
(** ** gauss_blur *)
(* ===================================================================== *)

(** C2 (what the code does): for a kernel of more than 25 taps on a host
    with neither resize2 nor akarin expressions, gauss_blur reaches the
    [raise CustomRuntimeError(...)] of lines 159-163, but the module never
    imports that name, so the exception that leaves the function is
    NameError for "CustomRuntimeError".  No clip is returned, and the error
    is not the one the raise statement describes. *)
Theorem gauss_blur_many_taps_without_engines :
  forall (h : Host) (clip : VideoNode) (sigma : Q) (taps : option Z)
         (mode : ConvMode) (planes : PlanesT),
    hasattr h "resize2" = false ->
    complexpr_available h = false ->
    25 < gauss_len (get_taps h (limit_sigma clip mode sigma) taps) ->
    gauss_blur h clip (Scalar sigma) taps mode planes =
      Raise (NameError "CustomRuntimeError") /\
    is_bound "CustomRuntimeError" = false /\
    (forall node, gauss_blur h clip (Scalar sigma) taps mode planes <> Ok node) /\
    gauss_blur h clip (Scalar sigma) taps mode planes <>
      Raise (CustomRuntimeError high_sigma_message).
Proof.
  intros h clip sigma taps mode planes Hr Hc Hlen.
  assert (E : gauss_blur h clip (Scalar sigma) taps mode planes =
              Raise (NameError "CustomRuntimeError")).
  { unfold gauss_blur, gauss_blur_float. rewrite Hr, Hc.
    apply Z.leb_gt in Hlen. rewrite Hlen. reflexivity. }
  rewrite E. split; [reflexivity|]. split; [reflexivity|].
  split; [intros node|]; discriminate.
Qed.

Lemma gauss_blur_many_taps_without_engines_witness :
  gauss_blur bare_host yuv420p8 (Scalar (5 # 1)) (Some 13) HV None =
    Raise (NameError "CustomRuntimeError").
Proof.
  apply (gauss_blur_many_taps_without_engines
           bare_host yuv420p8 (5 # 1) (Some 13) HV None).
  - reflexivity.
  - reflexivity.
  - reflexivity.
Defined.

(* ===================================================================== *)
(** ** bilateral *)
(* ===================================================================== *)

(** Where bilateral converts: on the CPU path ([gpu=False]) the clip handed
    to vszip.Bilateral is the input converted to 16 bits when the input has
    more than 16 bits and the input itself otherwise, and the result is
    converted back to the input's depth.  On the other two paths
    (bilateralgpu_rtc when the host has it, bilateralgpu otherwise) the
    primitive receives the input clip as it is and its output is returned
    without conversion. *)
Lemma bilateral_depth_normalisation :
  forall (h : Host) (clip : VideoNode) (sigmaS sigmaR : RadiusSpec Q)
         (ref : option VideoNode) (radius : option (RadiusSpec Z))
         (device_id : Z) (num_streams : option Z) (use_shared_memory : bool)
         (block_x block_y : option Z) (planes : PlanesT) (gpu : option bool),
    let result := bilateral h clip sigmaS sigmaR ref radius device_id num_streams
                            use_shared_memory block_x block_y planes gpu in
    (gpu = Some false ->
     exists prim input refs args,
       result = Ok (Depth prim (get_depth clip)) /\
       prim = Call "vszip" "Bilateral" (input :: refs) args /\
       input = (if 16 <? get_depth clip then Depth clip 16 else clip) /\
       (16 < get_depth clip -> get_depth input = 16) /\
       get_depth input <= 16 /\
       get_depth (Depth prim (get_depth clip)) = get_depth clip) /\
    (gpu <> Some false ->
     exists ns args,
       result = Ok (Call ns "Bilateral" (clip :: opt_clip ref) args) /\
       ns = (if hasattr h "bilateralgpu_rtc"
             then "bilateralgpu_rtc" else "bilateralgpu")).
Proof.
  intros h clip sigmaS sigmaR ref radius device_id num_streams use_shared_memory
         block_x block_y planes gpu result.
  split.
  - intros ->. unfold result, bilateral.
    do 4 eexists. split; [reflexivity|]. split; [reflexivity|].
    split; [reflexivity|].
    destruct (16 <? get_depth clip) eqn:E.
    + split; [intros _; reflexivity|].
      split; [unfold get_depth; simpl; lia | reflexivity].
    + apply Z.ltb_ge in E.
      split; [intros Hgt; lia|]. split; [exact E | reflexivity].
  - intros Hgpu. unfold result, bilateral.
    destruct gpu as [[|]|]; try congruence;
      destruct (hasattr h "bilateralgpu_rtc"); do 2 eexists;
      split; reflexivity.
Qed.

Lemma bilateral_depth_normalisation_witness :
  (exists prim refs args,
      bilateral bare_host yuv444ps (Scalar (3 # 1)) (Scalar (1 # 50)) None None 0
                None true None None None (Some false) = Ok (Depth prim 32) /\
      prim = Call "vszip" "Bilateral" (Depth yuv444ps 16 :: refs) args) /\
  (exists ns args,
      bilateral bare_host yuv444ps (Scalar (3 # 1)) (Scalar (1 # 50)) None None 0
                None true None None None None =
      Ok (Call ns "Bilateral" [yuv444ps] args)).
Proof.
  destruct (bilateral_depth_normalisation
              bare_host yuv444ps (Scalar (3 # 1)) (Scalar (1 # 50)) None None 0
              None true None None None (Some false)) as (Hcpu & _).
  destruct (bilateral_depth_normalisation
              bare_host yuv444ps (Scalar (3 # 1)) (Scalar (1 # 50)) None None 0
              None true None None None None) as (_ & Hgpu).
  split.
  - destruct (Hcpu eq_refl) as (prim & input & refs & args & Hr & Hp & Hi & _).
    exists prim, refs, args. split; [exact Hr|]. rewrite Hp, Hi. reflexivity.
  - destruct Hgpu as (ns & args & Hr & _); [discriminate|].
    exists ns, args. exact Hr.
Defined.



(* ===================================================================== *)
(** ** The radius normalizer and per-plane radii *)
(* ===================================================================== *)

Section NormalizerFacts.

Context {R : Type}.
Variable eqb : R -> R -> bool.
Hypothesis eqb_eq : forall a b, eqb a b = true <-> a = b.

Lemma distinct_In (l : list R) (x : R) : In x (distinct eqb l) <-> In x l.
Proof.
  induction l as [|r t IH]; simpl; [tauto|].
  rewrite filter_In, IH. split.
  - intros [-> | [Hin _]]; auto.
  - intros [-> | Hin]; [now left|].
    destruct (eqb r x) eqn:E.
    + left. now apply eqb_eq.
    + right. split; [exact Hin | reflexivity].
Qed.

Lemma distinct_NoDup (l : list R) : NoDup (distinct eqb l).
Proof.
  induction l as [|r t IH]; simpl; constructor.
  - rewrite filter_In. intros [_ Hne].
    assert (E : eqb r r = true) by now apply eqb_eq.
    rewrite E in Hne. discriminate.
  - now apply NoDup_filter.
Qed.

Lemma radius_groups_NoDup (radius : list R) (planes : list nat) :
  NoDup (map fst (radius_groups eqb radius planes)).
Proof.
  unfold radius_groups. rewrite map_map. simpl. rewrite map_id.
  apply distinct_NoDup.
Qed.

Lemma mem_In (i : nat) (l : list nat) : mem i l = true <-> In i l.
Proof.
  unfold mem. rewrite existsb_exists. split.
  - intros (j & Hin & E). apply Nat.eqb_eq in E. now subst.
  - intros Hin. exists i. split; [exact Hin | apply Nat.eqb_refl].
Qed.

(** A plane belongs to the group of a radius exactly when it is selected
    and asks for that radius. *)
Lemma radius_groups_member (radius : list R) (planes : list nat) (r : R)
    (g : list nat) (i : nat) :
  In (r, g) (radius_groups eqb radius planes) ->
  (mem i g = true <-> mem i planes = true /\ nth_error radius i = Some r).
Proof.
  unfold radius_groups. rewrite in_map_iff. intros (r' & E & _).
  inversion E; subst r' g. rewrite !mem_In, filter_In. unfold has_radius.
  destruct (nth_error radius i) as [ri|].
  - rewrite eqb_eq. split; intros [H1 H2]; split; congruence.
  - split; intros [_ H]; discriminate.
Qed.

Lemma radius_groups_cover (radius : list R) (planes : list nat) (r : R) (i : nat) :
  mem i planes = true -> nth_error radius i = Some r ->
  exists g, In (r, g) (radius_groups eqb radius planes).
Proof.
  intros Hi Hr. eexists. unfold radius_groups. apply in_map_iff.
  exists r. split; [reflexivity|]. apply distinct_In, in_flat_map.
  exists i. split; [now apply mem_In|]. unfold radius_at. rewrite Hr. now left.
Qed.

Variable func : VideoNode -> R -> list nat -> Result VideoNode.
Variable clip : VideoNode.

Lemma mapM_groups_ok (gs : list (R * list nat)) :
  (forall r g, In (r, g) gs -> exists o, func clip r g = Ok o) ->
  exists outs,
    mapM (fun g => o <- func clip (fst g) (snd g) ;; Ok (snd g, o)) gs = Ok outs.
Proof.
  induction gs as [|[r g] t IH]; intros Hall; simpl.
  - eexists; reflexivity.
  - destruct (Hall r g (or_introl eq_refl)) as (o & ->). simpl.
    destruct IH as (outs & ->); [intros; apply Hall; now right|].
    simpl. eexists; reflexivity.
Qed.

(** The clip taken for plane [i]: the input when no group holds the plane,
    else the output of the operator for a group that holds it. *)
Lemma source_for_groups (gs : list (R * list nat)) (i : nat) :
  forall outs,
    mapM (fun g => o <- func clip (fst g) (snd g) ;; Ok (snd g, o)) gs = Ok outs ->
    ((forall r g, In (r, g) gs -> mem i g = false) ->
     source_for outs clip i = clip) /\
    ((exists r g, In (r, g) gs /\ mem i g = true) ->
     exists r g o, In (r, g) gs /\ mem i g = true /\
                   func clip r g = Ok o /\ source_for outs clip i = o).
Proof.
  induction gs as [|[r g] t IH]; intros outs Hm; simpl in Hm.
  - inversion Hm; subst outs. split.
    + reflexivity.
    + intros (? & ? & [] & _).
  - destruct (func clip r g) as [o|e] eqn:Ef; simpl in Hm; [|discriminate].
    destruct (mapM _ t) as [outs'|e] eqn:Et; simpl in Hm; [|discriminate].
    inversion Hm; subst outs. simpl.
    destruct (IH outs' eq_refl) as [IHa IHb].
    destruct (mem i g) eqn:Ei.
    + split.
      * intros Hnone. specialize (Hnone r g (or_introl eq_refl)). congruence.
      * intros _. exists r, g, o. repeat split; auto.
    + split.
      * intros Hnone. apply IHa. intros; eapply Hnone; right; eassumption.
      * intros (r' & g' & [E | Hin] & Hi).
        { inversion E; subst. congruence. }
        destruct IHb as (r2 & g2 & o2 & Hin2 & Hi2 & Hf2 & Hs2);
          [exists r', g'; auto|].
        exists r2, g2, o2. repeat split; auto.
Qed.

(** What the normalizer returns: the planes of the clip in their order,
    each taken from the input when it is not selected and from the
    operator's output for its radius group when it is. *)
Lemma normalize_radius_planes (radius : list R) (planes : list nat) (out : VideoNode) :
  normalize_radius eqb clip func radius planes = Ok out ->
  exists ps,
    out = join ps /\
    List.length ps = num_planes (format_of clip) /\
    forall i, (i < num_planes (format_of clip))%nat ->
      (mem i planes = false -> nth_error ps i = Some (plane clip i)) /\
      (forall r, mem i planes = true -> nth_error radius i = Some r ->
         exists g o,
           In (r, g) (radius_groups eqb radius planes) /\
           mem i g = true /\
           func clip r g = Ok o /\
           nth_error ps i = Some (plane o i)).
Proof.
  unfold normalize_radius. intros Hn.
  destruct (mapM _ (radius_groups eqb radius planes)) as [outs|e] eqn:Em;
    simpl in Hn; [|discriminate].
  inversion Hn; subst out. eexists. split; [reflexivity|].
  split; [now rewrite length_map, length_seq|].
  intros i Hi.
  assert (Hnth : nth_error
                   (map (fun j => plane (source_for outs clip j) j)
                        (seq 0 (num_planes (format_of clip)))) i =
                 Some (plane (source_for outs clip i) i)).
  { rewrite nth_error_map, nth_error_seq.
    apply Nat.ltb_lt in Hi. rewrite Hi. reflexivity. }
  rewrite Hnth.
  destruct (source_for_groups _ i outs Em) as [Ha Hb]. split.
  - intros Hsel. rewrite Ha; [reflexivity|].
    intros r g Hin. destruct (mem i g) eqn:Eg; [|reflexivity].
    apply (radius_groups_member _ _ _ _ i Hin) in Eg. destruct Eg. congruence.
  - intros r Hsel Hr.
    destruct (radius_groups_cover radius planes r i Hsel Hr) as (g & Hing).
    destruct Hb as (r2 & g2 & o2 & Hin2 & Hi2 & Hf2 & Hs2).
    { exists r, g. split; [exact Hing|].
      apply (radius_groups_member _ _ _ _ i Hing). auto. }
    apply (radius_groups_member _ _ _ _ i Hin2) in Hi2 as Hi2'.
    destruct Hi2' as [_ Hr2]. assert (r2 = r) by congruence. subst r2.
    exists g2, o2. rewrite Hs2. auto.
Qed.

Lemma normalize_radius_total (radius : list R) (planes : list nat) :
  (forall r g, In (r, g) (radius_groups eqb radius planes) ->
               exists o, func clip r g = Ok o) ->
  exists out, normalize_radius eqb clip func radius planes = Ok out.
Proof.
  intros Hall. unfold normalize_radius.
  destruct (mapM_groups_ok _ Hall) as (outs & ->). simpl.
  eexists; reflexivity.
Qed.

End NormalizerFacts.

(** C4, as the specification words it, fails for median_blur and sbr: neither
    hands a list of radii to the normalizer.  For the radii [1, 0, 2]
    median_blur builds one norm_expr node holding three sorting-network
    programs (the entry 1 included, which as an int radius would have gone to
    std.Median), and sbr passes the list on to BlurMatrix.BINOMIAL; neither
    result is what the normalizer would return for the operator. *)
Lemma list_radius_bypasses_normalizer :
  median_blur bare_host yuv420p8 (PerPlane [1; 0; 2]) HV None =
    Ok (norm_expr [yuv420p8]
          [ median_expr (neighbourhood 1 HV); median_expr (neighbourhood 0 HV);
            median_expr (neighbourhood 2 HV) ] None) /\
  median_blur bare_host yuv420p8 (PerPlane [1; 0; 2]) HV None <>
    normalize_radius Z.eqb yuv420p8
      (fun c r p => median_blur bare_host c (Scalar r) HV (Some p))
      [1; 0; 2] (normalize_planes yuv420p8 None) /\
  (exists args,
      sbr yuv420p8 (PerPlane [1; 0; 2]) HV None =
      Ok (Call "std" "MakeDiff"
            [ yuv420p8;
              norm_expr
                [ Call "std" "MakeDiff"
                    [ yuv420p8;
                      Call "BlurMatrix" "__call__" [yuv420p8]
                        (VKernel (BINOMIAL (PerPlane [1; 0; 2]) HV) :: args) ]
                    args;
                  Call "BlurMatrix" "__call__"
                    [ Call "std" "MakeDiff"
                        [ yuv420p8;
                          Call "BlurMatrix" "__call__" [yuv420p8]
                            (VKernel (BINOMIAL (PerPlane [1; 0; 2]) HV) :: args) ]
                        args ]
                    (VKernel (BINOMIAL (PerPlane [1; 0; 2]) HV) :: args) ]
                [sbr_expr] (Some [0; 1; 2]%nat) ]
            args)) /\
  sbr yuv420p8 (PerPlane [1; 0; 2]) HV None <>
    normalize_radius Z.eqb yuv420p8
      (fun c r p => sbr c (Scalar r) HV (Some p))
      [1; 0; 2] (normalize_planes yuv420p8 None).
Proof.
  split; [reflexivity|].
  split; [intros H; vm_compute in H; discriminate H|].
  split; [eexists; reflexivity|].
  intros H; vm_compute in H; discriminate H.
Qed.

(** C4 (amended): box_blur, side_box_blur, gauss_blur and min_blur hand a
    list-valued radius or sigma to the radius normalizer, together with the
    operator itself and the normalised plane selection.  The normalizer forms
    one group per distinct radius of a selected plane, calls the operator
    once for each group, and, when those calls succeed, returns the planes of
    the clip in their original order: a plane outside the selection is the
    input's plane, a selected plane is taken from the operator's output for
    the group of its radius.  median_blur does not use the normalizer: it
    compiles one sorting-network program per entry of the list and hands
    them to the expression engine in one norm_expr call. *)
Theorem list_radius_normalizer_dispatch :
  forall (h : Host) (clip : VideoNode) (l : list Z) (ls : list Q)
         (passes : Z) (taps : option Z) (mode : ConvMode) (planes : PlanesT)
         (inverse : bool)
         (body : VideoNode -> Z -> list nat -> bool -> Result VideoNode),
    let pl := normalize_planes clip planes in
    box_blur h clip (PerPlane l) passes mode planes =
      normalize_radius Z.eqb clip
        (fun c r p => box_blur h c (Scalar r) passes HV (Some p)) l pl /\
    side_box_blur body clip (PerPlane l) planes inverse =
      normalize_radius Z.eqb clip
        (fun c r p => side_box_blur body c (Scalar r) (Some p) inverse) l pl /\
    gauss_blur h clip (PerPlane ls) taps mode planes =
      normalize_radius Qeq_bool clip
        (fun c s p => gauss_blur h c (Scalar s) None mode (Some p)) ls pl /\
    min_blur h clip (PerPlane l) mode planes =
      normalize_radius Z.eqb clip
        (fun c r p => min_blur h c (Scalar r) HV (Some p)) l pl /\
    median_blur h clip (PerPlane l) mode planes =
      Ok (norm_expr [clip]
            (map (fun r => median_expr (expr_matrix h r mode)) l) planes) /\
    NoDup (map fst (radius_groups Z.eqb l pl)) /\
    forall func : VideoNode -> Z -> list nat -> Result VideoNode,
      (forall r g, In (r, g) (radius_groups Z.eqb l pl) ->
                   exists o, func clip r g = Ok o) ->
      exists ps,
        normalize_radius Z.eqb clip func l pl = Ok (join ps) /\
        List.length ps = num_planes (format_of clip) /\
        forall i, (i < num_planes (format_of clip))%nat ->
          (mem i pl = false -> nth_error ps i = Some (plane clip i)) /\
          (forall r, mem i pl = true -> nth_error l i = Some r ->
             exists g o,
               In (r, g) (radius_groups Z.eqb l pl) /\
               mem i g = true /\
               func clip r g = Ok o /\
               nth_error ps i = Some (plane o i)).
Proof.
  intros h clip l ls passes taps mode planes inverse body pl.
  split; [reflexivity|]. split; [reflexivity|]. split; [reflexivity|].
  split; [reflexivity|]. split; [reflexivity|].
  split; [apply radius_groups_NoDup, Z.eqb_eq|].
  intros func Hall.
  destruct (normalize_radius_total Z.eqb func clip l pl Hall) as (out & Hout).
  destruct (normalize_radius_planes Z.eqb Z.eqb_eq func clip l pl out Hout)
    as (ps & -> & Hlen & Hps).
  exists ps. split; [exact Hout|]. split; [exact Hlen | exact Hps].
Qed.

Lemma list_radius_normalizer_dispatch_witness :
  exists ps,
    box_blur bare_host yuv420p8 (PerPlane [1; 0; 2]) 1 HV (Some [0; 2]%nat) =
      Ok (join ps) /\
    List.length ps = 3%nat /\
    nth_error ps 1 = Some (plane yuv420p8 1).
Proof.
  destruct (list_radius_normalizer_dispatch
              bare_host yuv420p8 [1; 0; 2] [] 1 None HV (Some [0; 2]%nat) false
              (fun c _ _ _ => Ok c))
    as (Hbox & _ & _ & _ & _ & _ & Hnorm).
  destruct (Hnorm (fun c r p => box_blur bare_host c (Scalar r) 1 HV (Some p)))
    as (ps & Hps & Hlen & Hplanes).
  - intros r g _. unfold box_blur, box_blur_int.
    destruct (r =? 0); [eexists; reflexivity|].
    cbn [hasattr bare_host plugins existsb].
    destruct ((12 <? r) && negb (is_half_float (format_of yuv420p8)));
      eexists; reflexivity.
  - exists ps. split; [rewrite Hbox; exact Hps|]. split; [exact Hlen|].
    apply (Hplanes 1%nat); [simpl; lia | reflexivity].
Defined.

(* ===================================================================== *)
(** ** More on the sorting-network program of median_blur *)
(* ===================================================================== *)

(** Inserting a value into a sorted list puts, at position k, that value
    clipped to the neighbours k-1 and k of the list. *)
Lemma insert_asc_nth (x : Z) (s : list Z) :
  StronglySorted Z.le s ->
  forall k, (1 <= k)%nat -> (k < List.length s)%nat ->
  nth k (insert_asc x s) 0 = clamp x (nth (k - 1) s 0) (nth k s 0).
Proof.
  induction 1 as [|h t Hs IH Hall]; intros k Hk Hlen; simpl in Hlen; [lia|].
  assert (Hsorted : StronglySorted Z.le (h :: t)) by now constructor.
  simpl insert_asc. destruct (x <=? h) eqn:E.
  - apply Z.leb_le in E.
    destruct k as [|k]; [lia|].
    replace (S k - 1)%nat with k by lia.
    assert (H1 : h <= nth k (h :: t) 0).
    { apply (sorted_nth_le _ Hsorted 0 k); simpl; lia. }
    assert (H2 : nth k (h :: t) 0 <= nth (S k) (h :: t) 0).
    { apply (sorted_nth_le _ Hsorted k (S k)); simpl; lia. }
    change (nth (S k) (x :: h :: t) 0) with (nth k (h :: t) 0).
    revert H1 H2. generalize (nth k (h :: t) 0), (nth (S k) (h :: t) 0).
    intros a b H1 H2. unfold clamp. lia.
  - apply Z.leb_gt in E.
    destruct k as [|[|k]]; [lia| |].
    + destruct t as [|h2 t2]; [simpl in Hlen; lia|].
      rewrite Forall_forall in Hall.
      assert (Hh : h <= h2) by (apply Hall; now left).
      simpl. destruct (x <=? h2) eqn:E2; simpl; unfold clamp.
      * apply Z.leb_le in E2. lia.
      * apply Z.leb_gt in E2. lia.
    + cbn [nth]. rewrite IH by lia.
      replace (S k - 0)%nat with (S k) by lia.
      replace (S (S k) - 1)%nat with (S k) by lia.
      replace (S k - 1)%nat with k by lia.
      destruct t as [|h2 t2]; [simpl in Hlen; lia|]. reflexivity.
Qed.

(** X1: for a neighbourhood of 2k >= 2 offsets around the pixel, the program
    median_blur compiles returns the median of the whole window, the centre
    pixel included: the value at position k of the 2k + 1 sorted samples. *)
Theorem median_expr_is_window_median :
  forall (env : PixelEnv) (coords : list (Z * Z)) (k : nat),
    (1 <= k)%nat -> List.length coords = (2 * k)%nat ->
    let nb := map (fun c => sample env 0 (fst c) (snd c)) coords in
    eval env (median_expr coords) =
    Some (nth k (sort_asc (sample env 0 0 0 :: nb)) 0).
Proof.
  intros env coords k Hk Hlen nb.
  rewrite (median_expr_eval env coords k Hk Hlen). fold nb. f_equal.
  simpl sort_asc. symmetry. apply insert_asc_nth.
  - apply sort_asc_sorted.
  - exact Hk.
  - rewrite sort_asc_length. unfold nb. rewrite length_map. lia.
Qed.

Lemma median_expr_is_window_median_witness :
  eval ramp_env (median_expr (neighbourhood 2 HORIZONTAL)) =
  Some (nth 2 (sort_asc [20; 10; 15; 25; 30]) 0).
Proof.
  apply (median_expr_is_window_median ramp_env (neighbourhood 2 HORIZONTAL) 2).
  - lia.
  - reflexivity.
Defined.

(** X2: the value the expression path would give for the eight neighbours of
    a 3x3 window is the direct 3x3 median of the nine samples, in whatever
    order the window lists them; the two branches of median_blur agree at
    radius 1. *)
Theorem median_expr_agrees_with_median3x3 :
  forall (env : PixelEnv) (coords : list (Z * Z)) (window : list Z),
    List.length coords = 8%nat ->
    Permutation window
      (sample env 0 0 0 :: map (fun c => sample env 0 (fst c) (snd c)) coords) ->
    eval env (median_expr coords) = Some (median3x3 window).
Proof.
  intros env coords window Hlen Hperm.
  rewrite (median_expr_is_window_median env coords 4) by (lia || exact Hlen).
  unfold median3x3. do 2 f_equal.
  apply sorted_perm_eq; try apply sort_asc_sorted.
  eapply perm_trans; [apply sort_asc_perm|].
  eapply perm_trans; [apply Permutation_sym; exact Hperm|].
  apply Permutation_sym, sort_asc_perm.
Qed.

Lemma median_expr_agrees_with_median3x3_witness :
  eval spike_env (median_expr (neighbourhood 1 SQUARE)) =
  Some (median3x3 [0; 0; 0; 0; 255; 0; 0; 0; 0]).
Proof.
  apply (median_expr_agrees_with_median3x3 spike_env (neighbourhood 1 SQUARE)).
  - reflexivity.
  - simpl. apply Permutation_sym.
    change [255; 0; 0; 0; 0; 0; 0; 0; 0] with ([255] ++ [0; 0; 0; 0] ++ [0; 0; 0; 0]).
    change [0; 0; 0; 0; 255; 0; 0; 0; 0] with ([0; 0; 0; 0] ++ [255] ++ [0; 0; 0; 0]).
    apply Permutation_app_swap_app.
Defined.

Lemma half_up (n : nat) :
  (1 <= n)%nat ->
  (Z.of_nat n + 1) / 2 - 1 = Z.of_nat ((n + 1) / 2 - 1) /\
  (2 * ((n + 1) / 2) <= n + 1 < 2 * ((n + 1) / 2) + 2)%nat.
Proof.
  intros Hn.
  pose proof (Nat.div_mod_eq (n + 1) 2) as Hd.
  pose proof (Nat.mod_upper_bound (n + 1) 2 ltac:(lia)) as Hm.
  split; [|lia].
  replace (Z.of_nat n + 1) with (Z.of_nat (n + 1)) by lia.
  change 2 with (Z.of_nat 2). rewrite <- Nat2Z.inj_div. lia.
Qed.

(** The program for any neighbourhood of at least two offsets: the two
    stored values are the sorted samples at positions sp and sp + 1, where
    sp = (n + 1) // 2 - 1. *)
Lemma median_expr_eval_any (env : PixelEnv) (coords : list (Z * Z)) :
  (2 <= List.length coords)%nat ->
  let s := sort_asc (map (fun c => sample env 0 (fst c) (snd c)) coords) in
  let sp := ((List.length coords + 1) / 2 - 1)%nat in
  eval env (median_expr coords) =
  Some (clamp (sample env 0 0 0) (nth sp s 0) (nth (S sp) s 0)).
Proof.
  intros Hn s sp.
  set (n := List.length coords) in *.
  destruct (half_up n ltac:(lia)) as [Hsp Hdiv]. fold sp in Hsp.
  assert (Hsp1 : (S sp < n)%nat) by (unfold sp; lia).
  unfold median_expr. rewrite length_map. fold n. rewrite Hsp.
  replace (Z.of_nat n + 1 - 1) with (Z.of_nat n) by lia.
  replace (Z.of_nat n - 2) with (Z.of_nat (n - 2)) by lia.
  unfold eval. rewrite run_app, run_loads, app_nil_r.
  set (nb := map (fun c => sample env 0 (fst c) (snd c)) coords) in *.
  assert (Hnb : List.length (rev nb) = n)
    by (unfold nb, n; rewrite length_rev, length_map; reflexivity).
  cbn [run]. rewrite step_SortN by lia.
  rewrite firstn_all2, skipn_all2, app_nil_r, sort_asc_rev by lia.
  fold s.
  assert (Hs : List.length s = n)
    by (unfold s; rewrite sort_asc_length, <- Hnb, length_rev; reflexivity).
  destruct (swap_top_spec sp s) as (s1 & E1 & L1 & T1 & O1); [lia|].
  rewrite (step_SwapN _ _ _ _ _ E1).
  destruct s1 as [|top1 r1]; [simpl in L1; lia|].
  rewrite step_Store. simpl in L1, T1.
  destruct (swap_top_spec sp r1) as (s2 & E2 & L2 & T2 & O2); [lia|].
  rewrite (step_SwapN _ _ _ _ _ E2).
  destruct s2 as [|top2 r2]; [simpl in L2; lia|].
  rewrite step_Store. simpl in L2, T2.
  rewrite step_DropN by lia. rewrite skipn_all2 by lia.
  cbn. subst top1. rewrite T2.
  specialize (O1 (S sp)). simpl in O1. rewrite O1 by lia. reflexivity.
Qed.

(** X3: the program median_blur compiles leaves a value exactly when the
    neighbourhood has at least two offsets.  For an empty neighbourhood,
    which is what radius 0 gives, the counts in the program are negative and
    the engine rejects it. *)
Theorem median_expr_well_formed_iff :
  forall (env : PixelEnv) (coords : list (Z * Z)),
    (exists v, eval env (median_expr coords) = Some v) <->
    (2 <= List.length coords)%nat.
Proof.
  intros env coords. split.
  - intros (v & Hv).
    destruct coords as [|c1 [|c2 t]]; [discriminate Hv | discriminate Hv |].
    simpl. lia.
  - intros Hn. eexists. apply (median_expr_eval_any env coords Hn).
Qed.

(** X4: when every neighbour of a pixel has the same value, the program
    returns that value whatever the pixel itself holds: a lone outlier in a
    flat area is replaced by its surroundings, at any radius. *)
Theorem median_expr_flat_neighbourhood :
  forall (env : PixelEnv) (coords : list (Z * Z)) (k : nat) (c : Z),
    (1 <= k)%nat -> List.length coords = (2 * k)%nat ->
    (forall p, In p coords -> sample env 0 (fst p) (snd p) = c) ->
    eval env (median_expr coords) = Some c.
Proof.
  intros env coords k c Hk Hlen Hflat.
  rewrite (median_expr_eval env coords k Hk Hlen).
  set (s := sort_asc (map (fun p => sample env 0 (fst p) (snd p)) coords)).
  assert (Hall : forall i, (i < 2 * k)%nat -> nth i s 0 = c).
  { intros i Hi.
    assert (Hin : In (nth i s 0) s).
    { apply nth_In. unfold s. rewrite sort_asc_length, length_map. lia. }
    apply (Permutation_in _ (sort_asc_perm _)) in Hin.
    apply in_map_iff in Hin. destruct Hin as (p & <- & Hp). now apply Hflat. }
  rewrite !Hall by lia. unfold clamp. f_equal. lia.
Qed.

Lemma median_expr_flat_neighbourhood_witness :
  eval spike_env (median_expr (neighbourhood 2 SQUARE)) = Some 0.
Proof.
  apply (median_expr_flat_neighbourhood spike_env (neighbourhood 2 SQUARE) 12 0).
  - lia.
  - reflexivity.
  - intros p Hp. unfold neighbourhood in Hp. apply filter_In in Hp.
    destruct Hp as [_ Hc]. simpl. destruct ((fst p =? 0) && (snd p =? 0));
      [discriminate Hc | reflexivity].
Defined.

Lemma median_expr_well_formed_iff_witness :
  (exists v, eval spike_env (median_expr (neighbourhood 1 VERTICAL)) = Some v) /\
  eval spike_env (median_expr (neighbourhood 0 SQUARE)) = None.
Proof.
  split.
  - apply (median_expr_well_formed_iff spike_env (neighbourhood 1 VERTICAL)).
    simpl. lia.
  - destruct (eval spike_env (median_expr (neighbourhood 0 SQUARE))) as [v|] eqn:E;
      [|reflexivity].
    assert (H : (2 <= List.length (neighbourhood 0 SQUARE))%nat).
    { apply (median_expr_well_formed_iff spike_env). exists v. exact E. }
    simpl in H. lia.
Defined.

(* ===================================================================== *)
(** ** More on the merges of min_blur and sbr *)
(* ===================================================================== *)



(** X7: the limited difference of sbr lies between the neutral value and the
    residual: the limiter never enlarges the residual and never moves it to
    the other side of neutral. *)
Theorem sbr_expr_limits_residual :
  forall d e nv : Z,
    exists limited,
      eval (pointwise [d; e] nv) sbr_expr = Some limited /\
      Z.min nv d <= limited <= Z.max nv d.
Proof.
  intros d e nv. exists (sbr_merge nv d e).
  split; [apply sbr_expr_eval|].
  unfold sbr_merge, agree, truthy.
  destruct (0 <? d - e) eqn:E1; destruct (0 <? d - nv) eqn:E2; simpl;
    rewrite ?Z.ltb_lt, ?Z.ltb_ge in *; try lia;
    destruct (Z.abs (d - e) <? Z.abs (d - nv)) eqn:E3;
    rewrite ?Z.ltb_lt, ?Z.ltb_ge in *; lia.
Qed.

Lemma pow2_half (bits : Z) : 1 <= bits -> 2 ^ bits = 2 * 2 ^ (bits - 1) /\ 1 <= 2 ^ (bits - 1).
Proof.
  intros H. split.
  - replace bits with (Z.succ (bits - 1)) at 1 by lia.
    apply Z.pow_succ_r. lia.
  - assert (0 < 2 ^ (bits - 1)) by (apply Z.pow_pos_nonneg; lia). lia.
Qed.

(** X8: for valid samples of an integer format, the sample sbr returns lies
    between the source pixel and its binomial blur, whatever the re-blurred
    difference is: sbr never overshoots the blur and never moves a pixel
    away from it. *)
Theorem sbr_pixel_between_source_and_blur :
  forall bits x blurred blurred_diff : Z,
    1 <= bits ->
    valid_sample bits x -> valid_sample bits blurred ->
    exists out,
      sbr_pixel bits x blurred blurred_diff = Some out /\
      Z.min x blurred <= out <= Z.max x blurred.
Proof.
  intros bits x blurred blurred_diff Hbits Hx Hb.
  unfold sbr_pixel, pixel_out.
  destruct (sbr_expr_limits_residual (make_diff bits x blurred) blurred_diff
              (2 ^ (bits - 1))) as (limited & Hev & Hlim).
  rewrite Hev. simpl. eexists. split; [reflexivity|].
  destruct (pow2_half bits Hbits) as [Hp Hq].
  unfold valid_sample in *. revert Hlim. unfold make_diff, store_sample.
  rewrite Hp in *. generalize dependent (2 ^ (bits - 1)). intros P. lia.
Qed.

Lemma sbr_pixel_between_source_and_blur_witness :
  exists out,
    sbr_pixel 8 200 180 140 = Some out /\ Z.min 200 180 <= out <= Z.max 200 180.
Proof.
  apply (sbr_pixel_between_source_and_blur 8 200 180 140).
  - lia.
  - unfold valid_sample. simpl. lia.
  - unfold valid_sample. simpl. lia.
Defined.

(* ===================================================================== *)
(** ** side_box_blur for an int radius *)
(* ===================================================================== *)

Lemma map_constant {A B : Type} (f : A -> B) (c : B) (l : list A) :
  (forall a, In a l -> f a = c) -> map f l = repeat c (List.length l).
Proof.
  induction l as [|a t IH]; intros H; simpl; [reflexivity|].
  rewrite (H a) by now left. f_equal. apply IH. intros; apply H; now right.
Qed.

Lemma rev_repeat_same {A : Type} (c : A) (n : nat) : rev (repeat c n) = repeat c n.
Proof.
  induction n as [|n IH]; simpl; [reflexivity|].
  rewrite IH. clear IH. induction n as [|n IH]; simpl; [reflexivity|].
  now rewrite IH.
Qed.

(** X9: for a radius r >= 0 the half kernel of side_box_blur is r + 1 ones
    followed by r zeros (the centre and the side before it), and the
    reversed kernel is r zeros followed by r + 1 ones (the centre and the
    side after it); for a negative radius the kernel is empty. *)
Theorem half_kernel_shape :
  forall r : Z,
    (0 <= r ->
     half_kernel r = repeat 1 (Z.to_nat (r + 1)) ++ repeat 0 (Z.to_nat r) /\
     rev (half_kernel r) = repeat 0 (Z.to_nat r) ++ repeat 1 (Z.to_nat (r + 1)) /\
     List.length (half_kernel r) = Z.to_nat (2 * r + 1)) /\
    (r < 0 -> half_kernel r = []).
Proof.
  intros r. split.
  - intros Hr.
    assert (E : half_kernel r =
                repeat 1 (Z.to_nat (r + 1)) ++ repeat 0 (Z.to_nat r)).
    { unfold half_kernel, py_range.
      replace (Z.to_nat (r + 1 - - r)) with (Z.to_nat (r + 1) + Z.to_nat r)%nat by lia.
      rewrite seq_app, !map_app. f_equal.
      - rewrite map_map.
        rewrite (map_constant _ 1); [now rewrite length_seq|].
        intros k Hk. apply in_seq in Hk.
        assert (Hle : (- r + Z.of_nat k <=? 0) = true) by (apply Z.leb_le; lia).
        now rewrite Hle.
      - rewrite map_map.
        rewrite (map_constant _ 0); [now rewrite length_seq|].
        intros k Hk. apply in_seq in Hk.
        assert (Hgt : (- r + Z.of_nat k <=? 0) = false) by (apply Z.leb_gt; lia).
        now rewrite Hgt. }
    split; [exact E|]. split.
    + rewrite E, rev_app_distr, !rev_repeat_same. reflexivity.
    + rewrite E, length_app, !repeat_length. lia.
  - intros Hr. unfold half_kernel, py_range.
    replace (Z.to_nat (r + 1 - - r)) with 0%nat by lia. reflexivity.
Qed.

Lemma half_kernel_shape_witness :
  half_kernel 2 = [1; 1; 1; 0; 0] /\ rev (half_kernel 2) = [0; 0; 1; 1; 1] /\
  half_kernel (-1) = [].
Proof.
  destruct (half_kernel_shape 2) as [Hpos _].
  destruct (half_kernel_shape (-1)) as [_ Hneg].
  destruct (Hpos ltac:(lia)) as (H1 & H2 & _).
  split; [exact H1|]. split; [exact H2|]. apply Hneg. lia.
Defined.

(** X10: side_box_blur with an int radius never returns a clip.  The third
    filter of each direction calls box_blur with the keywords hradius,
    vradius, hpasses and vpasses, which box_blur has no parameters for; the
    first such call, on the first vertical intermediate, raises TypeError
    unless one of the three convolutions before it has already failed.  This
    holds whatever the convolutions return and whatever lines 89-126 would
    do with the intermediates. *)
Theorem side_box_scalar_never_returns :
  forall (convolution : VideoNode -> list Z -> list nat -> ConvMode -> Outcome VideoNode)
         (box_blur_kw : VideoNode -> list (string * PyVal) -> Outcome VideoNode)
         (finish : list VideoNode -> Outcome VideoNode)
         (clip : VideoNode) (radius : Z) (planes : list nat),
    (forall out,
        side_box_scalar convolution box_blur_kw finish clip radius planes <>
        Returned out) /\
    (forall v h1 h2,
        convolution clip (half_kernel radius) planes VERTICAL = Returned v ->
        convolution v (half_kernel radius) planes HORIZONTAL = Returned h1 ->
        convolution v (rev (half_kernel radius)) planes HORIZONTAL = Returned h2 ->
        side_box_scalar convolution box_blur_kw finish clip radius planes =
        Failed (TypeError "box_blur() got an unexpected keyword argument 'hradius'")).
Proof.
  intros convolution box_blur_kw finish clip radius planes.
  unfold side_box_scalar, side_intermediates, side_filters, enumerate.
  cbn [List.length seq combine collect fst snd Nat.eqb andb negb].
  split.
  - intros out.
    destruct (convolution clip (half_kernel radius) planes VERTICAL) as [v|e];
      cbn [and_then]; [|discriminate].
    destruct (convolution v (half_kernel radius) planes HORIZONTAL) as [h1|e];
      cbn [and_then]; [|discriminate].
    destruct (convolution v (rev (half_kernel radius)) planes HORIZONTAL) as [h2|e];
      cbn [and_then]; discriminate.
  - intros v h1 h2 Hv H1 H2. rewrite Hv. cbn [and_then]. rewrite H1, H2.
    reflexivity.
Qed.

Lemma side_box_scalar_never_returns_witness :
  side_box_scalar
    (fun c m p mode => Returned (Call "std" "Convolution" [c] [VPlanes p; VMode mode]))
    (fun c _ => Returned c) (fun _ => Returned yuv420p8) yuv420p8 1 [0%nat] =
  Failed (TypeError "box_blur() got an unexpected keyword argument 'hradius'").
Proof.
  destruct (side_box_scalar_never_returns
              (fun c m p mode =>
                 Returned (Call "std" "Convolution" [c] [VPlanes p; VMode mode]))
              (fun c _ => Returned c) (fun _ => Returned yuv420p8)
              yuv420p8 1 [0%nat]) as [_ H].
  apply (H _ _ _ eq_refl eq_refl eq_refl).
Defined.

(* ===================================================================== *)
(** ** More on gauss_blur *)
(* ===================================================================== *)

(** X13: on the expression path (more than 25 taps, no resize2, akarin
    expressions available) gauss_blur convolves horizontally first and
    vertically second with a kernel of scale 1.0: both passes in HV mode,
    one pass in HORIZONTAL or VERTICAL mode, and no pass at all in SQUARE
    mode, where the input clip is returned as it is. *)
Theorem gauss_blur_expression_passes :
  forall (h : Host) (clip : VideoNode) (sigma : Q) (taps : option Z)
         (mode : ConvMode) (planes : PlanesT),
    let sigma' := limit_sigma clip mode sigma in
    let taps' := get_taps h sigma' taps in
    let kernel := GAUSS taps' sigma' mode 1%Q in
    25 < gauss_len taps' ->
    hasattr h "resize2" = false ->
    complexpr_available h = true ->
    gauss_blur h clip (Scalar sigma) taps mode planes =
    Ok (match mode with
        | HV => expr_convolution kernel VERTICAL
                  (expr_convolution kernel HORIZONTAL clip)
        | HORIZONTAL => expr_convolution kernel HORIZONTAL clip
        | VERTICAL => expr_convolution kernel VERTICAL clip
        | SQUARE => clip
        end).
Proof.
  intros h clip sigma taps mode planes sigma' taps' kernel Hlen Hr Hc.
  unfold gauss_blur, gauss_blur_float. fold sigma'. fold taps'.
  rewrite Hr, Hc. cbn [negb andb].
  assert (E12 : (12 <? taps') = true)
    by (apply Z.ltb_lt; unfold gauss_len in Hlen; lia).
  apply Z.leb_gt in Hlen. rewrite Hlen, E12. fold kernel.
  destruct mode; reflexivity.
Qed.

Lemma gauss_blur_expression_passes_witness :
  gauss_blur gpu_host yuv420p8 (Scalar (5 # 1)) (Some 13) SQUARE None = Ok yuv420p8 /\
  gauss_blur gpu_host yuv420p8 (Scalar (5 # 1)) (Some 13) HV None =
  Ok (expr_convolution (GAUSS 13 (5 # 1) HV 1%Q) VERTICAL
        (expr_convolution (GAUSS 13 (5 # 1) HV 1%Q) HORIZONTAL yuv420p8)).
Proof.
  split.
  - apply (gauss_blur_expression_passes gpu_host yuv420p8 (5 # 1) (Some 13) SQUARE None);
      reflexivity.
  - apply (gauss_blur_expression_passes gpu_host yuv420p8 (5 # 1) (Some 13) HV None);
      reflexivity.
Defined.

(** X14: on the resize2 path (more than 25 taps, resize2 present) gauss_blur
    scales the whole clip at once when every plane is selected; otherwise it
    joins the planes of the clip in their order, a selected plane scaled and
    every other plane exactly the input's plane. *)
Theorem gauss_blur_resize2_planes :
  forall (h : Host) (clip : VideoNode) (sigma : Q) (taps : option Z)
         (mode : ConvMode) (planes : PlanesT),
    let sigma' := limit_sigma clip mode sigma in
    let taps' := get_taps h sigma' taps in
    let pl := normalize_planes clip planes in
    let n := num_planes (format_of clip) in
    25 < gauss_len taps' ->
    hasattr h "resize2" = true ->
    ((forall i, (i < n)%nat -> mem i pl = true) ->
     gauss_blur h clip (Scalar sigma) taps mode planes =
     Ok (resize2_blur sigma' taps' mode clip)) /\
    ((exists i, (i < n)%nat /\ mem i pl = false) ->
     exists ps,
       gauss_blur h clip (Scalar sigma) taps mode planes = Ok (join ps) /\
       List.length ps = n /\
       forall i, (i < n)%nat ->
         (mem i pl = false -> nth_error ps i = Some (plane clip i)) /\
         (mem i pl = true ->
          nth_error ps i = Some (resize2_blur sigma' taps' mode (plane clip i)))).
Proof.
  intros h clip sigma taps mode planes sigma' taps' pl n Hlen Hr.
  unfold gauss_blur, gauss_blur_float. fold sigma'. fold taps'. fold pl. fold n.
  apply Z.leb_gt in Hlen. rewrite Hlen, Hr. cbn [negb].
  split.
  - intros Hall.
    assert (E : forallb (fun i => mem i pl) (seq 0 n) = true).
    { apply forallb_forall. intros i Hi. apply in_seq in Hi. apply Hall. lia. }
    rewrite E. reflexivity.
  - intros (i0 & Hi0 & Hm0).
    assert (E : forallb (fun i => mem i pl) (seq 0 n) = false).
    { destruct (forallb (fun i => mem i pl) (seq 0 n)) eqn:Ef; [|reflexivity].
      rewrite forallb_forall in Ef. rewrite Ef in Hm0; [discriminate|].
      apply in_seq. lia. }
    rewrite E. eexists. split; [reflexivity|].
    split; [now rewrite length_map, length_seq|].
    intros i Hi.
    assert (Hnth : forall f : nat -> VideoNode,
               nth_error (map f (seq 0 n)) i = Some (f i)).
    { intros f. rewrite nth_error_map, nth_error_seq.
      apply Nat.ltb_lt in Hi. rewrite Hi. reflexivity. }
    rewrite Hnth. split; intros ->; reflexivity.
Qed.

Lemma gauss_blur_resize2_planes_witness :
  exists ps,
    gauss_blur (mkHost ["resize2"] false (taps_or 3) neighbourhood) yuv420p8
               (Scalar (5 # 1)) (Some 13) HV (Some [0%nat]) = Ok (join ps) /\
    nth_error ps 1 = Some (plane yuv420p8 1).
Proof.
  destruct (gauss_blur_resize2_planes
              (mkHost ["resize2"] false (taps_or 3) neighbourhood) yuv420p8
              (5 # 1) (Some 13) HV (Some [0%nat]) eq_refl eq_refl) as [_ H].
  destruct H as (ps & Hps & _ & Hplanes).
  - exists 1%nat. split; [simpl; lia | reflexivity].
  - exists ps. split; [exact Hps|].
    apply (Hplanes 1%nat); [simpl; lia | reflexivity].
Defined.

(** X15: the sigma gauss_blur works with never exceeds the sigma requested.
    It is limited to the clip's height in VERTICAL mode and to its width in
    HORIZONTAL mode; in HV and SQUARE mode it is the requested sigma itself,
    however large. *)
Theorem limit_sigma_bounds :
  forall (clip : VideoNode) (mode : ConvMode) (sigma : Q),
    Qle (limit_sigma clip mode sigma) sigma /\
    (mode = VERTICAL -> Qle (limit_sigma clip mode sigma) (inject_Z (height_of clip))) /\
    (mode = HORIZONTAL -> Qle (limit_sigma clip mode sigma) (inject_Z (width_of clip))) /\
    (mode = HV \/ mode = SQUARE -> limit_sigma clip mode sigma = sigma).
Proof.
  intros clip mode sigma.
  assert (Hmin : forall s d, Qle (py_min s d) s /\ Qle (py_min s d) (inject_Z d)).
  { intros s d. unfold py_min. destruct (Qle_bool s (inject_Z d)) eqn:E.
    - split; [apply Qle_refl | now apply Qle_bool_iff].
    - split; [|apply Qle_refl].
      apply Qlt_le_weak, Qnot_le_lt. intros H.
      apply Qle_bool_iff in H. congruence. }
  split; [|split; [|split]].
  - destruct mode; unfold limit_sigma; cbn; try apply Qle_refl; apply Hmin.
  - intros ->. unfold limit_sigma. cbn. apply Hmin.
  - intros ->. unfold limit_sigma. cbn. apply Hmin.
  - intros [-> | ->]; reflexivity.
Qed.

Lemma limit_sigma_bounds_witness :
  Qle (limit_sigma yuv420p8 VERTICAL (1000 # 1)) (inject_Z 480) /\
  Qle (limit_sigma yuv420p8 HORIZONTAL (1000 # 1)) (inject_Z 640) /\
  limit_sigma yuv420p8 HV (1000 # 1) = (1000 # 1).
Proof.
  destruct (limit_sigma_bounds yuv420p8 VERTICAL (1000 # 1)) as (_ & Hv & _).
  destruct (limit_sigma_bounds yuv420p8 HORIZONTAL (1000 # 1)) as (_ & _ & Hh & _).
  destruct (limit_sigma_bounds yuv420p8 HV (1000 # 1)) as (_ & _ & _ & Hhv).
  split; [apply Hv; reflexivity|]. split; [apply Hh; reflexivity|].
  apply Hhv. left. reflexivity.
Defined.

(* ===================================================================== *)
(** ** More on bilateral *)
(* ===================================================================== *)

(** X16: on the CPU path of bilateral, a reference clip reaches
    vszip.Bilateral with the same sample size as the clip the primitive
    works on: it is passed as given when its format equals that of the
    (possibly converted) clip and converted to the clip's depth otherwise.
    Without a reference the primitive receives the clip alone. *)
Theorem bilateral_cpu_reference_depth :
  forall (h : Host) (clip : VideoNode) (sigmaS sigmaR : RadiusSpec Q)
         (ref : option VideoNode) (radius : option (RadiusSpec Z))
         (device_id : Z) (num_streams : option Z) (use_shared_memory : bool)
         (block_x block_y : option Z) (planes : PlanesT),
    exists prim input,
      bilateral h clip sigmaS sigmaR ref radius device_id num_streams
                use_shared_memory block_x block_y planes (Some false) =
        Ok (Depth prim (get_depth clip)) /\
      primitive_input prim = Some input /\
      (ref = None -> primitive_ref prim = None) /\
      (forall r, ref = Some r ->
         exists r',
           primitive_ref prim = Some r' /\
           get_depth r' = get_depth input /\
           (format_eqb (format_of input) (format_of r) = true -> r' = r) /\
           (format_eqb (format_of input) (format_of r) = false ->
            r' = DepthOf r input)).
Proof.
  intros h clip sigmaS sigmaR ref radius device_id num_streams use_shared_memory
         block_x block_y planes.
  unfold bilateral.
  set (input := if 16 <? get_depth clip then Depth clip 16 else clip).
  eexists. exists input. split; [reflexivity|].
  split; [reflexivity|]. split.
  - intros ->. reflexivity.
  - intros r ->.
    destruct (format_eqb (format_of input) (format_of r)) eqn:E; cbn [negb opt_clip].
    + exists r. split; [reflexivity|]. split; [|split; [reflexivity | discriminate]].
      unfold format_eqb in E.
      apply Bool.andb_true_iff in E. destruct E as [E _].
      apply Bool.andb_true_iff in E. destruct E as [_ E].
      apply Z.eqb_eq in E. unfold get_depth. symmetry. exact E.
    + exists (DepthOf r input).
      split; [reflexivity|]. split; [reflexivity|].
      split; [discriminate | reflexivity].
Qed.

Lemma bilateral_cpu_reference_depth_witness :
  exists prim r',
    bilateral bare_host yuv444ps (Scalar (3 # 1)) (Scalar (1 # 50)) (Some yuv420p8)
              None 0 None true None None None (Some false) = Ok (Depth prim 32) /\
    primitive_ref prim = Some r' /\
    get_depth r' = 16.
Proof.
  destruct (bilateral_cpu_reference_depth
              bare_host yuv444ps (Scalar (3 # 1)) (Scalar (1 # 50)) (Some yuv420p8)
              None 0 None true None None None)
    as (prim & input & Hres & Hin & _ & Href).
  destruct (Href yuv420p8 eq_refl) as (r' & Hr' & Hd & _).
  exists prim, r'. split; [exact Hres|]. split; [exact Hr'|].
  rewrite Hd.
  assert (Hprim : prim = Call "vszip" "Bilateral"
                           [Depth yuv444ps 16; DepthOf yuv420p8 (Depth yuv444ps 16)]
                           (norm_seq None (Scalar (3 # 1)) ++
                            norm_seq None (Scalar (1 # 50)))).
  { vm_compute in Hres. inversion Hres. reflexivity. }
  rewrite Hprim in Hin. simpl in Hin. inversion Hin. reflexivity.
Defined.
